(** * HealthGuard: report ingestion and outbreak-cluster detection

    A shallow embedding of the state transitions of [src/App.tsx]
    ([handleReportSubmit], [handleAddComment]) and of the services they call
    ([analyzeVillageHealth], [analyzeClusters] from the [geminiService]
    module), together with the properties the specification states about them.
    The sources hold two older copies of [App.tsx] as well ([part_002] and the
    first half of [part_003]); where they differ from [src/App.tsx] they are
    embedded next to it, in [Part002] and [Part003].

    Conventions of the embedding.
    - A JavaScript string is a [string]; a character is one code unit below
      256.  [split], [includes], [trim] and [parseFloat] are written out for
      that alphabet.
    - Head counts ([population], [activeCases], [affectedCount]) are JavaScript
      numbers that hold integers; they are integers ([Z]) here, which is exact
      below 2^53.
    - Every other JavaScript number is a [number]: [NaN], an infinity, or the
      exact rational value the double stands for.  A decimal text is carried
      by the exact value it denotes; the platform rounds that value to the
      nearest double in the same way for a literal and for [parseFloat], so two
      equal values here are equal doubles there.  The sign of zero is dropped.
    - The clock, the generative service, [JSON.parse] and the IEEE operations
      used for the haversine distance and the cluster centre are inputs of the
      functions that read them.
    - React state other than [villages] (tabs, selection, spinners) is not part
      of the model; [setVillages (prev => ...)] is applied to the state the
      handler started from (single writer). *)

From Stdlib Require Import ZArith QArith String Ascii List Lia DecimalString DecimalPos.
From stdpp Require Import base list strings gmap.

Local Open Scope string_scope.
Local Open Scope list_scope.
Local Close Scope Q_scope.
Local Open Scope nat_scope.

(** ** JavaScript numbers *)

Inductive number : Type :=
  | NaN
  | Infinity (negative : bool)
  | Finite (q : Q).

(** The value [m * 10^e], in lowest terms. *)
Definition decimal (m e : Z) : number :=
  Finite (Qred (Qmult (inject_Z m) (Qpower (10 # 1) e))).

Definition isNaN (x : number) : bool :=
  match x with NaN => true | _ => false end.

(** [x <= y] on doubles: false as soon as one side is [NaN]. *)
Definition num_leb (x y : number) : bool :=
  match x, y with
  | NaN, _ | _, NaN => false
  | Infinity true, _ => true
  | _, Infinity false => true
  | Infinity false, _ => false
  | _, Infinity true => false
  | Finite a, Finite b => Qle_bool a b
  end.

(** ** JavaScript strings *)

Definition is_digit (c : ascii) : bool :=
  let n := nat_of_ascii c in (48 <=? n)%nat && (n <=? 57)%nat.

Definition digit_value (c : ascii) : Z := Z.of_nat (nat_of_ascii c - 48).

(** White space and line terminators that fit in one byte:
    TAB, LF, VT, FF, CR, SP and NBSP. *)
Definition is_white (c : ascii) : bool :=
  let n := nat_of_ascii c in
  ((9 <=? n)%nat && (n <=? 13)%nat) || (n =? 32)%nat || (n =? 160)%nat.

(** [s.includes(c)] for a one-character needle. *)
Fixpoint includes (c : ascii) (s : string) : bool :=
  match s with
  | EmptyString => false
  | String d rest => Ascii.eqb d c || includes c rest
  end.

(** [s.split(c)] for a one-character separator: never empty, and
    [split c "" = [""]]. *)
Fixpoint split (c : ascii) (s : string) : list string :=
  match s with
  | EmptyString => [EmptyString]
  | String d rest =>
      if Ascii.eqb d c then EmptyString :: split c rest
      else match split c rest with
           | [] => [String d EmptyString]
           | piece :: pieces => String d piece :: pieces
           end
  end.

Fixpoint trimStart (s : string) : string :=
  match s with
  | EmptyString => EmptyString
  | String c rest => if is_white c then trimStart rest else s
  end.

Fixpoint trimEnd (s : string) : string :=
  match s with
  | EmptyString => EmptyString
  | String c rest =>
      match trimEnd rest with
      | EmptyString => if is_white c then EmptyString else String c EmptyString
      | kept => String c kept
      end
  end.

Definition trim (s : string) : string := trimEnd (trimStart s).

(** A string is truthy when it is not empty. *)
Definition truthy (s : string) : bool :=
  match s with EmptyString => false | _ => true end.

(** *** parseFloat

    The longest prefix of the input, after leading white space, that is a
    [StrDecimalLiteral]: an optional sign, then [Infinity] or decimal digits
    with an optional fraction and an optional exponent.  No such prefix gives
    [NaN]. *)

(** Reads a run of digits: the number read so far, how many digits were
    read, and the rest of the text. *)
Fixpoint digits (acc : Z) (n : nat) (s : string) : Z * nat * string :=
  match s with
  | EmptyString => (acc, n, s)
  | String c rest =>
      if is_digit c then digits (10 * acc + digit_value c) (S n) rest
      else (acc, n, s)
  end.

Definition sign_of (s : string) : bool * string :=
  match s with
  | String c rest =>
      if Ascii.eqb c "-" then (true, rest)
      else if Ascii.eqb c "+" then (false, rest)
      else (false, s)
  | EmptyString => (false, s)
  end.

(** The exponent part [e[+-]ddd]; it is ignored unless at least one digit
    follows. *)
Definition exponent (s : string) : Z :=
  match s with
  | String c rest =>
      if Ascii.eqb c "e" || Ascii.eqb c "E" then
        let '(neg, rest') := sign_of rest in
        let '(e, n, _) := digits 0 0 rest' in
        match n with
        | O => 0
        | S _ => if neg then (- e)%Z else e
        end
      else 0%Z
  | EmptyString => 0%Z
  end.

Definition signed (neg : bool) (m : Z) : Z := if neg then (- m)%Z else m.

(** The fraction and the exponent that follow the integer part [ip] of [ni]
    digits. *)
Definition fraction (neg : bool) (ip : Z) (ni : nat) (s1 : string) : number :=
  match s1 with
  | String c s2 =>
      if Ascii.eqb c "." then
        let '(m, nf, s3) := digits ip 0 s2 in
        match ni, nf with
        | O, O => NaN
        | _, _ => decimal (signed neg m) (exponent s3 - Z.of_nat nf)
        end
      else
        match ni with
        | O => NaN
        | S _ => decimal (signed neg ip) (exponent s1)
        end
  | EmptyString =>
      match ni with
      | O => NaN
      | S _ => decimal (signed neg ip) 0
      end
  end.

(** The literal at the start of a text that has no leading white space. *)
Definition parseLiteral (trimmed : string) : number :=
  let '(neg, s) := sign_of trimmed in
  if String.prefix "Infinity" s then Infinity neg
  else
    let '(ip, ni, s1) := digits 0 0 s in
    fraction neg ip ni s1.

Definition parseFloat (input : string) : number := parseLiteral (trimStart input).

(** ** Data model ([types.ts]) *)

Inductive HealthStatus : Type := GREEN | YELLOW | RED.

Global Instance HealthStatus_eq_dec : EqDecision HealthStatus.
Proof. solve_decision. Defined.

Record Coordinates : Type := { lat : number; lng : number }.

Module Comment.
Record t : Type := mk {
    id : string;
    author : string;
    text : string;
    timestamp : string
  }.
End Comment.

Module AIAnalysisResult.
Record t : Type := mk {
    riskLevel : HealthStatus;
    reasoning : string;
    recommendedActions : list string;
    predictedOutbreakChance : number;
    possibleDiagnosis : string
  }.
End AIAnalysisResult.

Module Village.
Record t : Type := mk {
    id : string;
    name : string;
    district : string;
    coordinates : Coordinates;
    population : Z;
    activeCases : Z;
    status : HealthStatus;
    lastReported : string;
    lastAshaWorker : option string;
    dominantSymptoms : list string;
    comments : list Comment.t;
    lastAnalysis : option AIAnalysisResult.t
  }.
End Village.

Inductive Sanitation : Type := Good | Ok | Worst.

Module CaseReport.
Record t : Type := mk {
    id : string;
    villageId : string;
    workerName : string;
    workerLocation : string;
    sanitationStatus : Sanitation;
    diseaseType : string;
    symptoms : string;
    affectedCount : Z;
    timestamp : string;
    notes : string
  }.
End CaseReport.

Module OutbreakCluster.
Record t : Type := mk {
    id : string;
    villageIds : list string;
    center : Coordinates;
    radius : number;
    severity : HealthStatus;
    aiAdvice : string
  }.
End OutbreakCluster.

(** What a call to the generative service can do: reject, or resolve to a
    response whose [text] may be missing. *)
Inductive Reply : Type :=
  | Rejected
  | Resolved (text : option string).

(** ** Seed data ([constants.ts]) *)

Definition seed (i n d : string) (la lo : Z) (pop cases : Z) (st : HealthStatus)
    (day : string) (sy : list string) : Village.t :=
  Village.mk i n d {| lat := decimal la (-4); lng := decimal lo (-4) |}
    pop cases st day None sy [] None.

(** [today], [yesterday] and [two days ago] stand for the three instants the
    seed list reads from the clock. *)
Definition INITIAL_VILLAGES : list Village.t :=
  [ seed "v1" "Pedana" "Krishna" 162556 811667 3100 2 GREEN "today" ["Mild Fever"];
    seed "v2" "Bobbili" "Vizianagaram" 185667 833667 5400 15 YELLOW "yesterday"
      ["Fever"; "Body Pain"];
    seed "v3" "Cheepurupalli" "Vizianagaram" 183000 835667 4200 45 RED "today"
      ["High Fever"; "Vomiting"; "Rash"];
    seed "v4" "Salur" "Vizianagaram" 185333 832167 3800 5 GREEN "two days ago" [];
    seed "v5" "Gajapathinagaram" "Vizianagaram" 182833 833333 2900 8 YELLOW "today"
      ["Cough"; "Fever"] ].

(** ** Risk analysis ([analyzeVillageHealth]) *)

Definition fallbackAnalysis : AIAnalysisResult.t :=
  AIAnalysisResult.mk YELLOW
    "AI Analysis unavailable. Defaulting to moderate caution due to new report."
    ["Monitor situation closely"; "Dispatch field team for manual verification"]
    (decimal 50 0)
    "Analysis Failed - Refer to Doctor".

(** Why the body of the [try] block stopped. *)
Inductive Thrown : Type :=
  | ServiceError
  | NoResponse
  | SyntaxError.

Section Analysis.

(** [JSON.parse] followed by the cast to [AIAnalysisResult], which is not
    checked (the service is asked for an object of that shape through
    [responseSchema]); [None] when [JSON.parse] throws. *)
Variable JSON_parse : string -> option AIAnalysisResult.t.

(** The body of the [try] block, given what the service call did.  The prompt
    is only sent to the service. *)
Definition analyzeVillageHealth_try (reply : Reply) : Thrown + AIAnalysisResult.t :=
  match reply with
  | Rejected => inl ServiceError
  | Resolved None => inl NoResponse
  | Resolved (Some text) =>
      if truthy text then
        match JSON_parse text with
        | Some result => inr result
        | None => inl SyntaxError
        end
      else inl NoResponse
  end.

(** The [catch] clause turns every throw into the fallback analysis. *)
Definition analyzeVillageHealth (village : Village.t) (newReport : CaseReport.t)
    (reply : Reply) : AIAnalysisResult.t :=
  match analyzeVillageHealth_try reply with
  | inr result => result
  | inl _ => fallbackAnalysis
  end.

(** The oracle call failed: the service rejected, answered without text, or
    answered with text that is not JSON. *)
Definition oracle_failed (reply : Reply) : Prop :=
  exists e, analyzeVillageHealth_try reply = inl e.

End Analysis.

(** ** Report ingestion ([handleReportSubmit] in [src/App.tsx]) *)

(** What one submission reads from outside the program: the answer of the
    service and the two readings of the clock. *)
Record Outside : Type := {
  reply : Reply;
  createdAt : string;
  updatedAt : string
}.

(** [{ lat: 20.5937, lng: 78.9629 }], the default India centre. *)
Definition defaultCenter : Coordinates :=
  {| lat := decimal 205937 (-4); lng := decimal 789629 (-4) |}.

(** The coordinates of a village that is created from a report.  A piece
    that destructuring leaves [undefined] is not a number either. *)
Definition parseCoordinates (workerLocation : string) : Coordinates :=
  if truthy workerLocation && includes "," workerLocation then
    let parsed := map (fun s => parseFloat (trim s)) (split "," workerLocation) in
    let lat := nth 0 parsed NaN in
    let lng := nth 1 parsed NaN in
    if negb (isNaN lat) && negb (isNaN lng) then {| lat := lat; lng := lng |}
    else defaultCenter
  else defaultCenter.

Definition newVillage (report : CaseReport.t) (villageName now : string) : Village.t :=
  {| Village.id := CaseReport.villageId report;
     Village.name := villageName;
     Village.district := "Detected via GPS";
     Village.coordinates := parseCoordinates (CaseReport.workerLocation report);
     Village.population := 1000;
     Village.activeCases := 0;
     Village.status := GREEN;
     Village.lastReported := now;
     Village.lastAshaWorker := None;
     Village.dominantSymptoms := [];
     Village.comments := [];
     Village.lastAnalysis := None |}.

(** [set.add(x)]: a set keeps its elements in insertion order. *)
Definition Set_add (set : list string) (x : string) : list string :=
  if bool_decide (x ∈ set) then set else set ++ [x].

(** [Array.from(new Set(xs))]. *)
Definition Array_from_Set (xs : list string) : list string :=
  fold_left Set_add xs [].

(** [symptoms.split(',')[0] || 'Unknown']. *)
Definition firstSymptom (symptoms : string) : string :=
  let first := nth 0 (split "," symptoms) "" in
  if truthy first then first else "Unknown".

(** The object literal [updatedVillage]. *)
Definition updateVillage (village : Village.t) (report : CaseReport.t)
    (analysis : AIAnalysisResult.t) (now : string) : Village.t :=
  {| Village.id := Village.id village;
     Village.name := Village.name village;
     Village.district := Village.district village;
     Village.coordinates := Village.coordinates village;
     Village.population := Village.population village;
     Village.activeCases :=
       (Village.activeCases village + CaseReport.affectedCount report)%Z;
     Village.status := AIAnalysisResult.riskLevel analysis;
     Village.lastReported := now;
     Village.lastAshaWorker := Some (CaseReport.workerName report);
     Village.dominantSymptoms :=
       Array_from_Set (Village.dominantSymptoms village
                       ++ [firstSymptom (CaseReport.symptoms report)]);
     Village.comments := Village.comments village;
     Village.lastAnalysis := Some analysis |}.

Definition has_id (i : string) (v : Village.t) : bool := String.eqb (Village.id v) i.

Section Ingestion.

Variable JSON_parse : string -> option AIAnalysisResult.t.

(** The village the report is about, and whether it had to be created. *)
Definition resolveVillage (out : Outside) (villages : list Village.t)
    (report : CaseReport.t) (villageName : string) : Village.t * bool :=
  match find (has_id (CaseReport.villageId report)) villages with
  | Some village => (village, false)
  | None => (newVillage report villageName (createdAt out), true)
  end.

Definition handleReportSubmit (out : Outside) (villages : list Village.t)
    (report : CaseReport.t) (villageName : string) : list Village.t :=
  let '(village, isNewVillage) := resolveVillage out villages report villageName in
  let analysis := analyzeVillageHealth JSON_parse village report (reply out) in
  let updatedVillage := updateVillage village report analysis (updatedAt out) in
  if isNewVillage then villages ++ [updatedVillage]
  else map (fun v => if has_id (Village.id updatedVillage) v then updatedVillage else v)
         villages.

(** The constants [analysis] and [updatedVillage] of the handler, to speak
    about them. *)
Definition analysisOf (out : Outside) (villages : list Village.t)
    (report : CaseReport.t) (villageName : string) : AIAnalysisResult.t :=
  analyzeVillageHealth JSON_parse
    (fst (resolveVillage out villages report villageName)) report (reply out).

Definition updatedVillageOf (out : Outside) (villages : list Village.t)
    (report : CaseReport.t) (villageName : string) : Village.t :=
  updateVillage (fst (resolveVillage out villages report villageName)) report
    (analysisOf out villages report villageName) (updatedAt out).

(** A run of submissions, oldest first. *)
Definition Submission : Type := Outside * CaseReport.t * string.

Definition ingestAll (villages : list Village.t) (run : list Submission)
    : list Village.t :=
  fold_left (fun vs '(out, report, villageName) =>
               handleReportSubmit out vs report villageName) run villages.

End Ingestion.

(** ** Earlier revisions of the handler

    Two more copies of [App.tsx] are part of the sources.  They differ from
    [src/App.tsx] in the object literal that the handler commits. *)

(** The copy in [part_003]: the analysis goes to the [latestAnalysis] panel
    and the village keeps whatever [lastAnalysis] it had. *)
Module Part003.

Definition updateVillage (village : Village.t) (report : CaseReport.t)
    (analysis : AIAnalysisResult.t) (now : string) : Village.t :=
  {| Village.id := Village.id village;
     Village.name := Village.name village;
     Village.district := Village.district village;
     Village.coordinates := Village.coordinates village;
     Village.population := Village.population village;
     Village.activeCases :=
       (Village.activeCases village + CaseReport.affectedCount report)%Z;
     Village.status := AIAnalysisResult.riskLevel analysis;
     Village.lastReported := now;
     Village.lastAshaWorker := Some (CaseReport.workerName report);
     Village.dominantSymptoms :=
       Array_from_Set (Village.dominantSymptoms village
                       ++ [firstSymptom (CaseReport.symptoms report)]);
     Village.comments := Village.comments village;
     Village.lastAnalysis := Village.lastAnalysis village |}.

Definition handleReportSubmit (JSON_parse : string -> option AIAnalysisResult.t)
    (out : Outside) (villages : list Village.t) (report : CaseReport.t)
    (villageName : string) : list Village.t :=
  let '(village, isNewVillage) := resolveVillage out villages report villageName in
  let analysis := analyzeVillageHealth JSON_parse village report (reply out) in
  let updatedVillage := updateVillage village report analysis (updatedAt out) in
  if isNewVillage then villages ++ [updatedVillage]
  else map (fun v => if has_id (Village.id updatedVillage) v then updatedVillage else v)
         villages.

End Part003.

(** The copy in [part_002]: reports about unknown villages are dropped, every
    symptom of the report is merged after trimming, and the merged list is cut
    to its first three entries. *)
Module Part002.

Definition mergeSymptoms (current : list string) (symptoms : string) : list string :=
  take 3 (Array_from_Set (current ++ map trim (split "," symptoms))).

Definition updateVillage (currentVillage : Village.t) (report : CaseReport.t)
    (analysis : AIAnalysisResult.t) (now : string) : Village.t :=
  {| Village.id := Village.id currentVillage;
     Village.name := Village.name currentVillage;
     Village.district := Village.district currentVillage;
     Village.coordinates := Village.coordinates currentVillage;
     Village.population := Village.population currentVillage;
     Village.activeCases :=
       (Village.activeCases currentVillage + CaseReport.affectedCount report)%Z;
     Village.status := AIAnalysisResult.riskLevel analysis;
     Village.lastReported := now;
     Village.lastAshaWorker := Some (CaseReport.workerName report);
     Village.dominantSymptoms :=
       mergeSymptoms (Village.dominantSymptoms currentVillage)
         (CaseReport.symptoms report);
     Village.comments := Village.comments currentVillage;
     Village.lastAnalysis := Village.lastAnalysis currentVillage |}.

Definition handleReportSubmit (JSON_parse : string -> option AIAnalysisResult.t)
    (out : Outside) (villages : list Village.t) (report : CaseReport.t)
    : list Village.t :=
  match list_find (fun v => Village.id v = CaseReport.villageId report) villages with
  | None => villages
  | Some (targetVillageIndex, currentVillage) =>
      let analysis := analyzeVillageHealth JSON_parse currentVillage report (reply out) in
      <[targetVillageIndex := updateVillage currentVillage report analysis (updatedAt out)]>
        villages
  end.

Definition ingestAll (JSON_parse : string -> option AIAnalysisResult.t)
    (villages : list Village.t) (run : list (Outside * CaseReport.t))
    : list Village.t :=
  fold_left (fun vs '(out, report) => handleReportSubmit JSON_parse out vs report)
    run villages.

End Part002.

(** ** Comments ([handleAddComment])

    [commentText] is the text typed so far; [uuid] and [now] are what
    [crypto.randomUUID] and the clock return. *)
Definition addCommentTo (newComment : Comment.t) (v : Village.t) : Village.t :=
  {| Village.id := Village.id v;
     Village.name := Village.name v;
     Village.district := Village.district v;
     Village.coordinates := Village.coordinates v;
     Village.population := Village.population v;
     Village.activeCases := Village.activeCases v;
     Village.status := Village.status v;
     Village.lastReported := Village.lastReported v;
     Village.lastAshaWorker := Village.lastAshaWorker v;
     Village.dominantSymptoms := Village.dominantSymptoms v;
     Village.comments := newComment :: Village.comments v;
     Village.lastAnalysis := Village.lastAnalysis v |}.

Definition handleAddComment (commentText uuid now : string)
    (villages : list Village.t) (villageId : string) : list Village.t :=
  if negb (truthy (trim commentText)) then villages
  else
    let newComment := Comment.mk uuid "Public User" commentText now in
    map (fun v => if has_id villageId v then addCommentTo newComment v else v) villages.

(** ** Cluster detection ([analyzeClusters]) *)

Definition DISTANCE_THRESHOLD : number := decimal 15000 0.

Definition string_of_nat (n : nat) : string := NilZero.string_of_uint (Nat.to_uint n).
Definition string_of_Z (z : Z) : string := NilZero.string_of_int (Z.to_int z).

Definition is_red (v : Village.t) : bool := bool_decide (Village.status v = RED).

Section Clusters.

(** The haversine distance in metres; it is computed with [Math.sin],
    [Math.cos] and [Math.atan2]. *)
Variable getDistance : Coordinates -> Coordinates -> number.

(** Addition and division of doubles, for the centre and the radius. *)
Variable js_add js_div : number -> number -> number.

(** [Date.now()] when the cluster anchored at index [i] is pushed. *)
Variable Date_now : nat -> Z.

(** The answer of the service when asked for a plan for the cluster anchored
    at index [i]. *)
Variable advisory : nat -> list Village.t -> HealthStatus -> Reply.

(** The inner loop over [j]: the villages after the anchor [v1]. *)
Fixpoint neighbours (v1 : Village.t) (later : list Village.t)
    (currentCluster : list Village.t) (processed : gset string)
    : list Village.t * gset string :=
  match later with
  | [] => (currentCluster, processed)
  | v2 :: later' =>
      if bool_decide (Village.id v2 ∈ processed)
      then neighbours v1 later' currentCluster processed
      else if num_leb (getDistance (Village.coordinates v1) (Village.coordinates v2))
                DISTANCE_THRESHOLD
      then neighbours v1 later' (currentCluster ++ [v2]) ({[Village.id v2]} ∪ processed)
      else neighbours v1 later' currentCluster processed
  end.

Definition severityOf (currentCluster : list Village.t) : HealthStatus :=
  if existsb is_red currentCluster then RED else YELLOW.

Definition adviceOf (i : nat) (currentCluster : list Village.t) : string :=
  match advisory i currentCluster (severityOf currentCluster) with
  | Resolved (Some text) =>
      if truthy text then text else "Cluster detected. Coordinate resources."
  | _ => "Cluster detected. Coordinate resources."
  end.

Definition number_of_nat (n : nat) : number := Finite (inject_Z (Z.of_nat n)).

(** The object pushed for the cluster anchored at index [i]. *)
Definition makeCluster (i : nat) (currentCluster : list Village.t) : OutbreakCluster.t :=
  let latSum := fold_left (fun sum v => js_add sum (lat (Village.coordinates v)))
                  currentCluster (Finite 0) in
  let lngSum := fold_left (fun sum v => js_add sum (lng (Village.coordinates v)))
                  currentCluster (Finite 0) in
  {| OutbreakCluster.id :=
       "cluster-" ++ string_of_Z (Date_now i) ++ "-" ++ string_of_nat i;
     OutbreakCluster.villageIds := map Village.id currentCluster;
     OutbreakCluster.center :=
       {| lat := js_div latSum (number_of_nat (length currentCluster));
          lng := js_div lngSum (number_of_nat (length currentCluster)) |};
     OutbreakCluster.radius := js_div DISTANCE_THRESHOLD (Finite 2);
     OutbreakCluster.severity := severityOf currentCluster;
     OutbreakCluster.aiAdvice := adviceOf i currentCluster |}.

(** The outer loop over [i]: [unsafe] is what is left of [unsafeVillages]
    from index [i] on. *)
Fixpoint scan (i : nat) (unsafe : list Village.t) (processed : gset string)
    (clusters : list OutbreakCluster.t) : list OutbreakCluster.t :=
  match unsafe with
  | [] => clusters
  | v1 :: later =>
      if bool_decide (Village.id v1 ∈ processed)
      then scan (S i) later processed clusters
      else
        let '(currentCluster, processed') :=
          neighbours v1 later [v1] ({[Village.id v1]} ∪ processed) in
        if (2 <=? length currentCluster)%nat
        then scan (S i) later processed' (clusters ++ [makeCluster i currentCluster])
        else scan (S i) later processed' clusters
  end.

Definition analyzeClusters (villages : list Village.t) : list OutbreakCluster.t :=
  scan 0 (filter (fun v => Village.status v ≠ GREEN) villages) ∅ [].

End Clusters.

(** ** The statements of the specification, in its own words *)

(** Coordinates of a created village as the specification words them: split
    on a comma, parse both halves as floating point, and fall back to the
    default centre when there is no comma or a half does not parse. *)
Definition coordinates_spec (workerLocation : string) : Coordinates :=
  match split "," workerLocation with
  | first :: second :: _ =>
      match parseFloat first, parseFloat second with
      | NaN, _ | _, NaN => defaultCenter
      | la, lo => {| lat := la; lng := lo |}
      end
  | _ => defaultCenter
  end.

(** The fields that ingestion is said to keep. *)
Definition kept_fields (village updated : Village.t) : Prop :=
  Village.id updated = Village.id village
  ∧ Village.name updated = Village.name village
  ∧ Village.district updated = Village.district village
  ∧ Village.coordinates updated = Village.coordinates village
  ∧ Village.population updated = Village.population village
  ∧ Village.comments updated = Village.comments village.

(** Only [activeCases], [status], [lastReported], [lastAshaWorker] and
    [dominantSymptoms] are modified: each of the seven other fields is
    kept. *)
Definition only_five_modified (village updated : Village.t) : Prop :=
  kept_fields village updated
  ∧ Village.lastAnalysis updated = Village.lastAnalysis village.



(** ** Sample inputs

    A parser that knows one answer of the service, the two ways a call can
    end, and a report. *)
Definition redAnalysis : AIAnalysisResult.t :=
  AIAnalysisResult.mk RED "Cases are rising." ["Send a medical team"]
    (decimal 80 0) "Likely Dengue".

Definition sampleParse (text : string) : option AIAnalysisResult.t :=
  if String.eqb text "{red}" then Some redAnalysis else None.

Definition outFailed : Outside :=
  {| reply := Rejected; createdAt := "t0"; updatedAt := "t1" |}.

Definition outRed : Outside :=
  {| reply := Resolved (Some "{red}"); createdAt := "t0"; updatedAt := "t1" |}.

Definition reportFor (villageId location symptoms : string) (count : Z) : CaseReport.t :=
  {| CaseReport.id := "r1";
     CaseReport.villageId := villageId;
     CaseReport.workerName := "Lakshmi";
     CaseReport.workerLocation := location;
     CaseReport.sanitationStatus := Worst;
     CaseReport.diseaseType := "Unknown";
     CaseReport.symptoms := symptoms;
     CaseReport.affectedCount := count;
     CaseReport.timestamp := "t";
     CaseReport.notes := "" |}.

(** Three unsafe villages in a row, and a distance table that puts
    neighbours 10 km apart and the two ends 25 km apart. *)
Definition villageAt (i : string) (row : Z) (st : HealthStatus) : Village.t :=
  Village.mk i i "Row" {| lat := decimal row 0; lng := decimal 0 0 |}
    1000 3 st "today" None ["Fever"] [] None.

Definition rowOf (c : Coordinates) : Z :=
  match lat c with Finite q => Qnum q | _ => 0%Z end.

Definition tableDistance (c1 c2 : Coordinates) : number :=
  match Z.abs (rowOf c1 - rowOf c2) with
  | 0%Z => decimal 0 0
  | 1%Z => decimal 10000 0
  | _ => decimal 25000 0
  end.

(** Arithmetic without rounding, a clock that stands still and a service
    that is down. *)
Definition exact_add (x y : number) : number :=
  match x, y with
  | Finite a, Finite b => Finite (Qred (Qplus a b))
  | _, _ => NaN
  end.

Definition exact_div (x y : number) : number :=
  match x, y with
  | Finite a, Finite b => if Qeq_bool b 0 then NaN else Finite (Qred (Qdiv a b))
  | _, _ => NaN
  end.

Definition frozenClock (i : nat) : Z := 1700000000000%Z.

Definition serviceDown (i : nat) (members : list Village.t) (s : HealthStatus) : Reply :=
  Rejected.

Definition rowA : Village.t := villageAt "A" 0 YELLOW.
Definition rowB : Village.t := villageAt "B" 1 RED.
Definition rowC : Village.t := villageAt "C" 2 YELLOW.

Definition rowClusters : list OutbreakCluster.t :=
  analyzeClusters tableDistance exact_add exact_div frozenClock serviceDown
    [rowA; rowB; rowC].

Definition rowCluster : OutbreakCluster.t :=
  makeCluster exact_add exact_div frozenClock serviceDown 0 [rowA; rowB].

(** ** The statistics of the header ([App.tsx]) *)

Definition totalCases (villages : list Village.t) : Z :=
  fold_left (fun acc v => (acc + Village.activeCases v)%Z) villages 0%Z.

Definition redZones (villages : list Village.t) : nat :=
  length (filter (fun v => Village.status v = RED) villages).

Definition yellowZones (villages : list Village.t) : nat :=
  length (filter (fun v => Village.status v = YELLOW) villages).

(** ** The member lists of the cluster detector

    The arrays [currentCluster] that the outer loop of [analyzeClusters]
    turns into clusters, each with the index of its anchor; the loops are
    those of [scan], without the objects that are pushed. *)
Section ClusterMembers.

Variable getDistance : Coordinates -> Coordinates -> number.

(** [getDistance(v1.coordinates, v2.coordinates) <= DISTANCE_THRESHOLD]. *)
Definition within_threshold (v1 v2 : Village.t) : Prop :=
  num_leb (getDistance (Village.coordinates v1) (Village.coordinates v2))
    DISTANCE_THRESHOLD = true.

Fixpoint memberLists (i : nat) (unsafe : list Village.t) (processed : gset string)
    : list (nat * list Village.t) :=
  match unsafe with
  | [] => []
  | v1 :: later =>
      if bool_decide (Village.id v1 ∈ processed)
      then memberLists (S i) later processed
      else
        let '(currentCluster, processed') :=
          neighbours getDistance v1 later [v1] ({[Village.id v1]} ∪ processed) in
        if (2 <=? length currentCluster)%nat
        then (i, currentCluster) :: memberLists (S i) later processed'
        else memberLists (S i) later processed'
  end.

End ClusterMembers.


(** A village whose two coordinates are numbers. *)
Definition located (v : Village.t) : Prop :=
  isNaN (lat (Village.coordinates v)) = false
  ∧ isNaN (lng (Village.coordinates v)) = false.

(** Two villages that differ at most in their comments, the second list of
    comments being the end of the first. *)
Definition same_but_comments (v' v : Village.t) : Prop :=
  Village.id v' = Village.id v
  ∧ Village.name v' = Village.name v
  ∧ Village.district v' = Village.district v
  ∧ Village.coordinates v' = Village.coordinates v
  ∧ Village.population v' = Village.population v
  ∧ Village.activeCases v' = Village.activeCases v
  ∧ Village.status v' = Village.status v
  ∧ Village.lastReported v' = Village.lastReported v
  ∧ Village.lastAshaWorker v' = Village.lastAshaWorker v
  ∧ Village.dominantSymptoms v' = Village.dominantSymptoms v
  ∧ Village.lastAnalysis v' = Village.lastAnalysis v
  ∧ ∃ added, Village.comments v' = added ++ Village.comments v.

(** ** The report form ([handleSubmit] of the form component, first copy in
    [part_001]) *)

(** [toLowerCase] on one code unit below 256: the letters A to Z and the
    accented capitals from U+00C0 to U+00DE, the multiplication sign apart,
    move up by 32. *)
Definition lowerChar (c : ascii) : ascii :=
  let n := nat_of_ascii c in
  if ((65 <=? n) && (n <=? 90))
     || ((192 <=? n) && (n <=? 222) && negb (n =? 215))
  then ascii_of_nat (n + 32)
  else c.

Fixpoint toLowerCase (s : string) : string :=
  match s with
  | EmptyString => EmptyString
  | String c rest => String (lowerChar c) (toLowerCase rest)
  end.

Module AshaForm.
Record t : Type := mk {
    workerName : string;
    selectedVillageName : string;
    workerLocation : string;
    foundAddress : string;
    diseaseType : string;
    affectedCount : Z;
    symptoms : string;
    sanitationStatus : Sanitation;
    notes : string
  }.
End AshaForm.

(** What a click on the submit button does: an alert, or a call of
    [onSubmitReport]. *)
Inductive Submitted : Type :=
  | Alerted (message : string)
  | Sent (report : CaseReport.t) (villageName : string).

(** [v.name.toLowerCase() === selectedVillageName.toLowerCase()]. *)
Definition sameName (selectedVillageName : string) (v : Village.t) : bool :=
  String.eqb (toLowerCase (Village.name v)) (toLowerCase selectedVillageName).

(** The fields that are reset after a report has been sent. *)
Definition resetForm (form : AshaForm.t) : AshaForm.t :=
  {| AshaForm.workerName := AshaForm.workerName form;
     AshaForm.selectedVillageName := AshaForm.selectedVillageName form;
     AshaForm.workerLocation := "";
     AshaForm.foundAddress := "";
     AshaForm.diseaseType := "";
     AshaForm.affectedCount := 1;
     AshaForm.symptoms := "";
     AshaForm.sanitationStatus := Good;
     AshaForm.notes := "" |}.

(** [uuid] is what [crypto.randomUUID] returns, [Date_now] and [isoNow] what
    the clock returns. *)
Definition handleSubmit (uuid : string) (Date_now : Z) (isoNow : string)
    (villages : list Village.t) (form : AshaForm.t) : Submitted * AshaForm.t :=
  let matchedVillage := find (sameName (AshaForm.selectedVillageName form)) villages in
  if negb (truthy (AshaForm.workerName form))
     || negb (truthy (AshaForm.selectedVillageName form))
  then (Alerted "Please fill in all required fields.", form)
  else if match matchedVillage with None => true | Some _ => false end
          && (negb (truthy (AshaForm.workerLocation form))
              || negb (includes "," (AshaForm.workerLocation form)))
  then (Alerted "For a new village, please click 'Find Coords' or 'Detect' to set the location on the map.",
        form)
  else
    let villageId :=
      match matchedVillage with
      | Some matched => Village.id matched
      | None => ("new-" ++ string_of_Z Date_now)%string
      end in
    let finalDisease :=
      if String.eqb (trim (AshaForm.diseaseType form)) "" then "Unknown"
      else AshaForm.diseaseType form in
    let report :=
      {| CaseReport.id := uuid;
         CaseReport.villageId := villageId;
         CaseReport.workerName := AshaForm.workerName form;
         CaseReport.workerLocation := AshaForm.workerLocation form;
         CaseReport.sanitationStatus := AshaForm.sanitationStatus form;
         CaseReport.diseaseType := finalDisease;
         CaseReport.symptoms := AshaForm.symptoms form;
         CaseReport.affectedCount := AshaForm.affectedCount form;
         CaseReport.timestamp := isoNow;
         CaseReport.notes := AshaForm.notes form |} in
    (Sent report (AshaForm.selectedVillageName form), resetForm form).

(** ** The search box and the selection ([App.tsx])

    The part of the state of [App] that the search box, the map and the
    details panel share.  [handleSearch] awaits the network, so it is two
    steps: what it does before the [await], and what it does once [fetch] and
    [response.json()] have settled. *)

(** [hay.includes(needle)]. *)
Fixpoint includesText (needle hay : string) : bool :=
  String.prefix needle hay
  || match hay with
     | EmptyString => false
     | String _ rest => includesText needle rest
     end.

Module SearchedLocation.
Record t : Type := mk {
    name : string;
    lat : number;
    lng : number
  }.
End SearchedLocation.

Module View.
Record t : Type := mk {
    selectedVillageId : option string;
    searchQuery : string;
    flyToLocation : option Coordinates;
    searchedLocation : option SearchedLocation.t;
    isGlobalSearching : bool
  }.
End View.

(** One entry of the answer of the geocoding service. *)
Module Place.
Record t : Type := mk {
    lat : string;
    lon : string;
    display_name : string
  }.
End Place.

(** How the request ends: it fails (the call rejects, the status is not ok,
    or the body is not JSON), or it gives a value that is an array of places
    or something else. *)
Inductive Geocoded : Type :=
  | GeocodeFailed
  | GeocodeArray (data : list Place.t)
  | GeocodeOther.

Definition initialView : View.t :=
  View.mk None "" None None false.

(** [v.name.toLowerCase().includes(searchQuery.toLowerCase())]. *)
Definition nameContains (searchQuery : string) (v : Village.t) : bool :=
  includesText (toLowerCase searchQuery) (toLowerCase (Village.name v)).

(** [handleSearch] up to the [await]: the new state, and whether a request
    was started. *)
Definition handleSearch_start (villages : list Village.t) (view : View.t)
    : View.t * bool :=
  if negb (truthy (trim (View.searchQuery view))) then (view, false)
  else
    match find (nameContains (View.searchQuery view)) villages with
    | Some found =>
        (View.mk (Some (Village.id found)) (View.searchQuery view) None None
           (View.isGlobalSearching view),
         false)
    | None =>
        (View.mk None (View.searchQuery view) (View.flyToLocation view) None true,
         true)
    end.

(** [handleSearch] after the [await]: the new state and the alert, if any. *)
Definition handleSearch_finish (reply : Geocoded) (view : View.t)
    : View.t * option string :=
  match reply with
  | GeocodeArray (place :: _) =>
      let newLoc := {| lat := parseFloat (Place.lat place);
                       lng := parseFloat (Place.lon place) |} in
      (View.mk (View.selectedVillageId view) (View.searchQuery view) (Some newLoc)
         (Some (SearchedLocation.mk (Place.display_name place) (lat newLoc) (lng newLoc)))
         false,
       None)
  | GeocodeArray [] | GeocodeOther =>
      (View.mk (View.selectedVillageId view) (View.searchQuery view)
         (View.flyToLocation view) (View.searchedLocation view) false,
       Some "Location not found in database or on global map.")
  | GeocodeFailed =>
      (View.mk (View.selectedVillageId view) (View.searchQuery view)
         (View.flyToLocation view) (View.searchedLocation view) false,
       Some "Search Service Error. Please check your internet connection.")
  end.

Definition clearSearch (view : View.t) : View.t :=
  View.mk (View.selectedVillageId view) "" None None (View.isGlobalSearching view).

(** A click on a marker ([onSelectVillage]), and the selection that
    [handleReportSubmit] makes once the report is committed. *)
Definition selectVillage (villageId : string) (view : View.t) : View.t :=
  View.mk (Some villageId) (View.searchQuery view) None None
    (View.isGlobalSearching view).

Definition setSearchQuery (value : string) (view : View.t) : View.t :=
  View.mk (View.selectedVillageId view) value (View.flyToLocation view)
    (View.searchedLocation view) (View.isGlobalSearching view).

(** What can happen to the view, in any order. *)
Inductive ViewEvent : Type :=
  | Typed (value : string)
  | SearchSubmitted (villages : list Village.t)
  | SearchSettled (reply : Geocoded)
  | SearchCleared
  | MarkerClicked (v : Village.t)
  | ReportCommitted (updatedVillage : Village.t).

Definition viewStep (view : View.t) (event : ViewEvent) : View.t :=
  match event with
  | Typed value => setSearchQuery value view
  | SearchSubmitted villages => fst (handleSearch_start villages view)
  | SearchSettled reply => fst (handleSearch_finish reply view)
  | SearchCleared => clearSearch view
  | MarkerClicked v => selectVillage (Village.id v) view
  | ReportCommitted updatedVillage => selectVillage (Village.id updatedVillage) view
  end.

(** The place the details panel describes is the place the map flies to. *)
Definition panel_matches_map (view : View.t) : Prop :=
  ∀ place, View.searchedLocation view = Some place →
    View.flyToLocation view
    = Some {| lat := SearchedLocation.lat place; lng := SearchedLocation.lng place |}.

(** ** The location text of the form ([handleGetLocation], [handleGeocode])

    Both write [`${lat.toFixed(5)}, ${lng.toFixed(5)}`] into the location
    field. *)

Definition digitChar (d : Z) : ascii := ascii_of_nat (48 + Z.to_nat d).

(** The integer [n] for which [n / 10^5] is closest to the absolute value of
    [q], the larger one when two are as close. *)
Definition scaled5 (q : Q) : Z :=
  let a := Z.abs (Qnum q) in
  let b := Z.pos (Qden q) in
  ((2 * a * 100000 + b) / (2 * b))%Z.

(** The last five digits of the digits of [n], zeros included. *)
Definition fraction5 (n : Z) : string :=
  String (digitChar ((n / 10000) mod 10))
    (String (digitChar ((n / 1000) mod 10))
       (String (digitChar ((n / 100) mod 10))
          (String (digitChar ((n / 10) mod 10))
             (String (digitChar (n mod 10)) EmptyString)))).

(** The absolute value of [q] is less than 10^21. *)
Definition below_1e21 (q : Q) : bool :=
  (Z.abs (Qnum q) <? 10 ^ 21 * Z.pos (Qden q))%Z.

Section Location.

(** [Number::toString] on a number of 10^21 or more. *)
Variable Number_toString : Q -> string.

(** [x.toFixed(5)]. *)
Definition toFixed5 (x : number) : string :=
  match x with
  | NaN => "NaN"
  | Infinity false => "Infinity"
  | Infinity true => "-Infinity"
  | Finite q =>
      let s := if (Qnum q <? 0)%Z then "-" else "" in
      let m :=
        if below_1e21 q
        then string_of_Z (scaled5 q / 100000) ++ "." ++ fraction5 (scaled5 q mod 100000)
        else Number_toString (Z.abs (Qnum q) # Qden q) in
      s ++ m
  end%string.

Definition locationText (latitude longitude : number) : string :=
  (toFixed5 latitude ++ ", " ++ toFixed5 longitude)%string.

End Location.

(** A number to five decimals, a tie going away from zero. *)
Definition roundTo5 (x : number) : number :=
  match x with
  | Finite q => decimal (signed (Qnum q <? 0)%Z (scaled5 q)) (-5)
  | other => other
  end.

(** The numbers on which [toFixed] is written out here. *)
Definition fixable (x : number) : Prop :=
  match x with
  | Finite q => below_1e21 q = true
  | _ => True
  end.

(** A [Number::toString] for the examples. *)
Definition sampleToString (q : Q) : string := "1e+21".

(** ** Samples for the form and the search box *)

Definition formFor (villageName location : string) : AshaForm.t :=
  AshaForm.mk "Lakshmi" villageName location "" "Dengue" 4 "Fever, Chills" Worst "".

Definition viewTyped (query : string) : View.t :=
  View.mk None query None None false.

(** * Properties *)

(** ** Strings and numbers on examples *)

Example parseFloat_18_3 : parseFloat "18.3" = Finite (183 # 10).
Proof. reflexivity. Qed.

Example parseFloat_83_5 : parseFloat " 83.50000" = Finite (167 # 2).
Proof. reflexivity. Qed.

Example parseFloat_exp : parseFloat "-1.5e2xyz" = Finite (-150 # 1).
Proof. reflexivity. Qed.

Example parseFloat_bad : parseFloat "bad input" = NaN.
Proof. reflexivity. Qed.

Example parseFloat_dot : parseFloat "." = NaN.
Proof. reflexivity. Qed.

Example parseFloat_sign_only : parseFloat "-" = NaN.
Proof. reflexivity. Qed.

Example parseFloat_fraction_only : parseFloat "+.5" = Finite (1 # 2).
Proof. reflexivity. Qed.

Example parseFloat_open_exponent : parseFloat "7e+" = Finite (7 # 1).
Proof. reflexivity. Qed.

Example parseFloat_trailing_dot : parseFloat "5.e3" = Finite (5000 # 1).
Proof. reflexivity. Qed.

Example parseFloat_hex : parseFloat "0x10" = Finite (0 # 1).
Proof. reflexivity. Qed.

Example parseFloat_inf : parseFloat "-Infinity" = Infinity true.
Proof. reflexivity. Qed.

Example split_two : split "," "18.3,83.5" = ["18.3"; "83.5"].
Proof. reflexivity. Qed.

Example split_empty : split "," "" = [""].
Proof. reflexivity. Qed.

Example trim_both : trim "  a b  " = "a b".
Proof. reflexivity. Qed.

Example fifty : decimal 50 0 = Finite (50 # 1).
Proof. reflexivity. Qed.

(** ** The insertion-ordered set *)

Lemma Set_add_elem (set : list string) (x y : string) :
  y ∈ Set_add set x ↔ y ∈ set ∨ y = x.
Proof.
  unfold Set_add. case_bool_decide as Hin.
  - split; [auto | intros [H | ->]; trivial].
  - rewrite elem_of_app, list_elem_of_singleton. tauto.
Qed.



Lemma fold_Set_add_elem (xs acc : list string) (y : string) :
  y ∈ fold_left Set_add xs acc ↔ y ∈ acc ∨ y ∈ xs.
Proof.
  revert acc. induction xs as [| x xs IH]; intros acc; simpl.
  - rewrite elem_of_nil. tauto.
  - rewrite IH, Set_add_elem, elem_of_cons. tauto.
Qed.



(** A set built from a list without repetitions is that list. *)
Lemma fold_Set_add_fresh (xs acc : list string) :
  NoDup (acc ++ xs) → fold_left Set_add xs acc = acc ++ xs.
Proof.
  revert acc. induction xs as [| x xs IH]; intros acc Hnd; simpl.
  - by rewrite app_nil_r.
  - assert (Hx : x ∉ acc).
    { apply NoDup_app in Hnd as (_ & Hdis & _). intros Hin.
      apply (Hdis x Hin). left. }
    unfold Set_add at 2. rewrite bool_decide_eq_false_2 by exact Hx.
    rewrite IH; rewrite <- app_assoc; [reflexivity | exact Hnd].
Qed.



Lemma Array_from_Set_elem (xs : list string) (y : string) :
  y ∈ Array_from_Set xs ↔ y ∈ xs.
Proof.
  unfold Array_from_Set. rewrite fold_Set_add_elem, elem_of_nil. tauto.
Qed.

(** ** Lookup by id *)

Lemma has_id_true (i : string) (v : Village.t) :
  has_id i v = true ↔ Village.id v = i.
Proof. unfold has_id. apply String.eqb_eq. Qed.

Lemma find_has_id_Some (i : string) (villages : list Village.t) (v : Village.t) :
  find (has_id i) villages = Some v → v ∈ villages ∧ Village.id v = i.
Proof.
  intros H. apply find_some in H as [Hin Hid].
  split; [by apply list_elem_of_In | by apply has_id_true].
Qed.

Lemma find_has_id_None (i : string) (villages : list Village.t) :
  find (has_id i) villages = None ↔ ∀ v, v ∈ villages → Village.id v ≠ i.
Proof.
  split.
  - intros H v Hin Hid.
    apply list_elem_of_In in Hin.
    pose proof (find_none _ _ H v Hin) as Hf.
    apply has_id_true in Hid. congruence.
  - intros H. induction villages as [| w ws IH]; simpl; [reflexivity |].
    destruct (has_id i w) eqn:Hw.
    + apply has_id_true in Hw. exfalso. apply (H w); [left | exact Hw].
    + apply IH. intros v Hv. apply H. by right.
Qed.

(** ** Trimming before [parseFloat] changes nothing *)

Lemma digit_not_white (c : ascii) : is_digit c = true → is_white c = false.
Proof.
  unfold is_digit, is_white. intros H.
  apply andb_true_iff in H as [Hlo Hhi].
  apply Nat.leb_le in Hlo. apply Nat.leb_le in Hhi.
  rewrite !orb_false_iff, andb_false_iff, !Nat.leb_gt, !Nat.eqb_neq. lia.
Qed.

Lemma eqb_not_white (c d : ascii) :
  is_white d = false → is_white c = true → Ascii.eqb c d = false.
Proof.
  intros Hd Hc. destruct (Ascii.eqb c d) eqn:He; [| reflexivity].
  apply Ascii.eqb_eq in He. congruence.
Qed.

(** A white character is none of the characters of a literal. *)
Ltac white_is_no_mark Hc :=
  rewrite ?(eqb_not_white _ "-"%char eq_refl Hc), ?(eqb_not_white _ "+"%char eq_refl Hc),
    ?(eqb_not_white _ "."%char eq_refl Hc), ?(eqb_not_white _ "e"%char eq_refl Hc),
    ?(eqb_not_white _ "E"%char eq_refl Hc).

Lemma trimEnd_cons (c : ascii) (r : string) :
  is_white c = false → trimEnd (String c r) = String c (trimEnd r).
Proof. intros Hc. simpl. rewrite Hc. by destruct (trimEnd r). Qed.

Lemma trimEnd_head (c : ascii) (r : string) :
  trimEnd (String c r) = EmptyString ∧ is_white c = true
  ∨ ∃ kept, trimEnd (String c r) = String c kept.
Proof.
  simpl. destruct (trimEnd r) as [| d k]; [| eauto].
  destruct (is_white c); eauto.
Qed.

Lemma trimStart_head (s : string) :
  trimStart s = EmptyString
  ∨ ∃ c r, trimStart s = String c r ∧ is_white c = false.
Proof.
  induction s as [| c r IH]; simpl; [by left |].
  destruct (is_white c) eqn:Hc; [exact IH | right; eauto].
Qed.

Lemma trimStart_trim (s : string) : trimStart (trim s) = trim s.
Proof.
  unfold trim. destruct (trimStart_head s) as [-> | (c & r & -> & Hc)]; [reflexivity |].
  rewrite (trimEnd_cons _ _ Hc). simpl. by rewrite Hc.
Qed.

Lemma digits_stop (acc : Z) (n : nat) (c : ascii) (r : string) :
  is_digit c = false → digits acc n (String c r) = (acc, n, String c r).
Proof. intros Hc. simpl. by rewrite Hc. Qed.

Lemma digits_trimEnd (s : string) : ∀ acc n,
  digits acc n (trimEnd s)
  = let '(a, m, rest) := digits acc n s in (a, m, trimEnd rest).
Proof.
  induction s as [| c r IH]; intros acc n; [reflexivity |].
  destruct (is_digit c) eqn:Hd.
  - rewrite (trimEnd_cons _ _ (digit_not_white _ Hd)).
    cbn [digits]. rewrite Hd. apply IH.
  - rewrite (digits_stop acc n c r Hd).
    destruct (trimEnd_head c r) as [[-> _] | [k ->]]; [reflexivity |].
    apply (digits_stop acc n c k Hd).
Qed.

Lemma sign_of_trimEnd (s : string) :
  sign_of (trimEnd s) = let '(neg, rest) := sign_of s in (neg, trimEnd rest).
Proof.
  destruct s as [| c r]; [reflexivity |].
  destruct (is_white c) eqn:Hc.
  - assert (Hs : sign_of (String c r) = (false, String c r)).
    { simpl. by white_is_no_mark Hc. }
    rewrite Hs.
    destruct (trimEnd_head c r) as [[-> _] | [k Hk]]; [reflexivity |].
    rewrite Hk. simpl. by white_is_no_mark Hc.
  - rewrite (trimEnd_cons _ _ Hc). simpl.
    destruct (Ascii.eqb c "-"); [reflexivity |].
    destruct (Ascii.eqb c "+"); [reflexivity |].
    by rewrite <- (trimEnd_cons _ _ Hc).
Qed.

Lemma exponent_trimEnd (s : string) : exponent (trimEnd s) = exponent s.
Proof.
  destruct s as [| c r]; [reflexivity |].
  destruct (is_white c) eqn:Hc.
  - assert (He : Ascii.eqb c "e" || Ascii.eqb c "E" = false)
      by by white_is_no_mark Hc.
    assert (Hs : exponent (String c r) = 0%Z) by (simpl; by rewrite He).
    rewrite Hs.
    destruct (trimEnd_head c r) as [[-> _] | [k ->]]; [reflexivity |].
    simpl. by rewrite He.
  - rewrite (trimEnd_cons _ _ Hc). simpl.
    destruct (Ascii.eqb c "e" || Ascii.eqb c "E"); [| reflexivity].
    rewrite sign_of_trimEnd. destruct (sign_of r) as [neg rest].
    rewrite digits_trimEnd. by destruct (digits 0 0 rest) as [[e n] rest'].
Qed.

Lemma prefix_trimEnd (p : string) : ∀ s,
  (∀ c, includes c p = true → is_white c = false) →
  String.prefix p (trimEnd s) = String.prefix p s.
Proof.
  induction p as [| a p IH]; intros s Hp; [by destruct (trimEnd s), s |].
  destruct s as [| c r]; [reflexivity |].
  assert (Ha : is_white a = false).
  { apply Hp. simpl. by rewrite Ascii.eqb_refl. }
  assert (Htl : ∀ c', includes c' p = true → is_white c' = false).
  { intros c' Hc'. apply Hp. simpl. by rewrite Hc', orb_true_r. }
  destruct (is_white c) eqn:Hc.
  - assert (Hne : a ≠ c) by congruence.
    assert (Hrhs : String.prefix (String a p) (String c r) = false).
    { simpl. by destruct (ascii_dec a c). }
    rewrite Hrhs.
    destruct (trimEnd_head c r) as [[-> _] | [k ->]]; [reflexivity |].
    simpl. by destruct (ascii_dec a c).
  - rewrite (trimEnd_cons _ _ Hc). simpl.
    destruct (ascii_dec a c); [by apply IH | reflexivity].
Qed.

Lemma fraction_trimEnd (neg : bool) (ip : Z) (ni : nat) (s1 : string) :
  fraction neg ip ni (trimEnd s1) = fraction neg ip ni s1.
Proof.
  destruct s1 as [| c r]; [reflexivity |].
  destruct (is_white c) eqn:Hc.
  - assert (Hdot : Ascii.eqb c "." = false)
      by apply (eqb_not_white c "."%char eq_refl Hc).
    assert (He : exponent (String c r) = 0%Z).
    { simpl. by white_is_no_mark Hc. }
    assert (Hrhs : fraction neg ip ni (String c r)
                   = match ni with O => NaN | S _ => decimal (signed neg ip) 0 end).
    { unfold fraction. by rewrite Hdot, He. }
    rewrite Hrhs.
    destruct (trimEnd_head c r) as [[-> _] | [k Hk]]; [reflexivity |].
    rewrite Hk. unfold fraction. rewrite Hdot, <- Hk, exponent_trimEnd, He.
    reflexivity.
  - rewrite (trimEnd_cons _ _ Hc). unfold fraction.
    destruct (Ascii.eqb c ".").
    + rewrite digits_trimEnd. destruct (digits ip 0 r) as [[m nf] s3].
      by rewrite exponent_trimEnd.
    + by rewrite <- (trimEnd_cons _ _ Hc), exponent_trimEnd.
Qed.

Lemma parseLiteral_trimEnd (s : string) : parseLiteral (trimEnd s) = parseLiteral s.
Proof.
  unfold parseLiteral. rewrite sign_of_trimEnd.
  destruct (sign_of s) as [neg rest].
  rewrite prefix_trimEnd.
  - destruct (String.prefix "Infinity" rest); [reflexivity |].
    rewrite digits_trimEnd. destruct (digits 0 0 rest) as [[ip ni] s1].
    apply fraction_trimEnd.
  - intros c Hc. cbn [includes] in Hc. rewrite !orb_true_iff in Hc.
    destruct Hc as [Hc | [Hc | [Hc | [Hc | [Hc | [Hc | [Hc | [Hc | Hc]]]]]]]];
      try discriminate; apply Ascii.eqb_eq in Hc; subst c; reflexivity.
Qed.

(** [parseFloat(s.trim())] is [parseFloat(s)]. *)
Lemma parseFloat_trim (s : string) : parseFloat (trim s) = parseFloat s.
Proof.
  unfold parseFloat. rewrite trimStart_trim. unfold trim. apply parseLiteral_trimEnd.
Qed.

(** ** Report ingestion *)

Section IngestionFacts.

Variable JSON_parse : string -> option AIAnalysisResult.t.

Implicit Types (out : Outside) (villages : list Village.t)
  (report : CaseReport.t) (villageName : string).

Lemma resolveVillage_found out villages report villageName village :
  find (has_id (CaseReport.villageId report)) villages = Some village →
  resolveVillage out villages report villageName = (village, false).
Proof. intros H. unfold resolveVillage. by rewrite H. Qed.

Lemma resolveVillage_new out villages report villageName :
  find (has_id (CaseReport.villageId report)) villages = None →
  resolveVillage out villages report villageName
  = (newVillage report villageName (createdAt out), true).
Proof. intros H. unfold resolveVillage. by rewrite H. Qed.

Lemma resolveVillage_id out villages report villageName :
  Village.id (fst (resolveVillage out villages report villageName))
  = CaseReport.villageId report.
Proof.
  unfold resolveVillage.
  destruct (find _ villages) as [v |] eqn:Hf; simpl; [| reflexivity].
  by apply find_has_id_Some in Hf as [_ ?].
Qed.

(** The new state of an existing village: every entry with the id of the
    report is replaced by the updated village. *)
Lemma handleReportSubmit_found out villages report villageName village :
  find (has_id (CaseReport.villageId report)) villages = Some village →
  handleReportSubmit JSON_parse out villages report villageName
  = map (fun v => if has_id (CaseReport.villageId report) v
                  then updatedVillageOf JSON_parse out villages report villageName
                  else v) villages.
Proof.
  intros H.
  assert (Hid : Village.id (updatedVillageOf JSON_parse out villages report villageName)
                = CaseReport.villageId report)
    by apply (resolveVillage_id out villages report villageName).
  rewrite <- Hid. unfold handleReportSubmit, updatedVillageOf, analysisOf.
  rewrite (resolveVillage_found _ _ _ _ _ H). reflexivity.
Qed.

Lemma handleReportSubmit_new out villages report villageName :
  find (has_id (CaseReport.villageId report)) villages = None →
  handleReportSubmit JSON_parse out villages report villageName
  = villages ++ [updatedVillageOf JSON_parse out villages report villageName].
Proof.
  intros H. unfold handleReportSubmit, updatedVillageOf, analysisOf.
  by rewrite (resolveVillage_new _ _ _ _ H).
Qed.





(** Every way the [try] block can stop is a failure of the call. *)
Lemma oracle_failed_cases r :
  oracle_failed JSON_parse r ↔
  r = Rejected ∨ r = Resolved None ∨ r = Resolved (Some "")
  ∨ ∃ text, r = Resolved (Some text) ∧ JSON_parse text = None.
Proof.
  unfold oracle_failed, analyzeVillageHealth_try. split.
  - intros [e He]. destruct r as [| [text |]]; auto.
    destruct text as [| c text]; auto. simpl in He.
    destruct (JSON_parse (String c text)) eqn:Hp; [discriminate |].
    right. right. right. eauto.
  - intros [-> | [-> | [-> | (text & -> & Hp)]]]; simpl; eauto.
    destruct (truthy text); rewrite ?Hp; eauto.
Qed.


End IngestionFacts.

(** ** Splitting on a comma *)

Lemma split_nonempty (c : ascii) (s : string) : split c s ≠ [].
Proof.
  destruct s as [| d rest]; simpl; [discriminate |].
  destruct (Ascii.eqb d c); [discriminate |].
  destruct (split c rest); discriminate.
Qed.

Lemma split_without (c : ascii) (s : string) :
  includes c s = false → split c s = [s].
Proof.
  induction s as [| d rest IH]; simpl; [reflexivity |].
  destruct (Ascii.eqb d c); simpl; [discriminate |].
  intros H. by rewrite (IH H).
Qed.

Lemma split_with (c : ascii) (s : string) :
  includes c s = true → ∃ first second more, split c s = first :: second :: more.
Proof.
  induction s as [| d rest IH]; simpl; [discriminate |].
  destruct (Ascii.eqb d c); simpl.
  - intros _. destruct (split c rest) as [| p ps] eqn:Hs.
    + by apply split_nonempty in Hs.
    + eauto.
  - intros H. destruct (IH H) as (a & b & more & ->). eauto.
Qed.

Lemma includes_truthy (c : ascii) (s : string) :
  includes c s = true → truthy s = true.
Proof. destruct s; [discriminate | reflexivity]. Qed.

(** The parser of the handler does what the specification words. *)
Lemma parseCoordinates_spec (workerLocation : string) :
  parseCoordinates workerLocation = coordinates_spec workerLocation.
Proof.
  unfold parseCoordinates, coordinates_spec.
  destruct (includes "," workerLocation) eqn:Hc.
  - rewrite (includes_truthy _ _ Hc). simpl andb.
    destruct (split_with _ _ Hc) as (a & b & more & ->). simpl.
    rewrite !parseFloat_trim.
    destruct (parseFloat a), (parseFloat b); reflexivity.
  - rewrite andb_false_r. by rewrite (split_without _ _ Hc).
Qed.

Section IngestionFrame.

Variable JSON_parse : string -> option AIAnalysisResult.t.

Implicit Types (out : Outside) (villages : list Village.t)
  (report : CaseReport.t) (villageName : string).

(** C7. A report whose [villageId] is unknown appends one village, which
    carries the id of the report; its coordinates are the two numbers read
    from [workerLocation] around the first comma, and the default centre when
    there is no comma or one of the two is not a number. *)
Theorem new_village_coordinates out villages report villageName :
  find (has_id (CaseReport.villageId report)) villages = None →
  let created := updatedVillageOf JSON_parse out villages report villageName in
  handleReportSubmit JSON_parse out villages report villageName = villages ++ [created]
  ∧ Village.id created = CaseReport.villageId report
  ∧ Village.coordinates created = coordinates_spec (CaseReport.workerLocation report)
  ∧ (includes "," (CaseReport.workerLocation report) = false →
     Village.coordinates created = defaultCenter).
Proof.
  intros Hnew. cbv zeta.
  split; [by apply handleReportSubmit_new |].
  split; [apply (resolveVillage_id out villages report villageName) |].
  assert (Hc : Village.coordinates
                 (updatedVillageOf JSON_parse out villages report villageName)
               = parseCoordinates (CaseReport.workerLocation report)).
  { unfold updatedVillageOf. by rewrite (resolveVillage_new _ _ _ _ Hnew). }
  rewrite Hc. split; [apply parseCoordinates_spec |].
  intros Hno. unfold parseCoordinates. by rewrite Hno, andb_false_r.
Qed.

(** The copy of the handler in [part_003] builds the same village as
    [src/App.tsx], except that it leaves [lastAnalysis] as it was. *)
Lemma Part003_updateVillage village report analysis now :
  let u := updateVillage village report analysis now in
  let u3 := Part003.updateVillage village report analysis now in
  Village.id u3 = Village.id u
  ∧ Village.name u3 = Village.name u
  ∧ Village.district u3 = Village.district u
  ∧ Village.coordinates u3 = Village.coordinates u
  ∧ Village.population u3 = Village.population u
  ∧ Village.activeCases u3 = Village.activeCases u
  ∧ Village.status u3 = Village.status u
  ∧ Village.lastReported u3 = Village.lastReported u
  ∧ Village.lastAshaWorker u3 = Village.lastAshaWorker u
  ∧ Village.dominantSymptoms u3 = Village.dominantSymptoms u
  ∧ Village.comments u3 = Village.comments u
  ∧ Village.lastAnalysis u3 = Village.lastAnalysis village.
Proof. repeat split. Qed.

(** C10. Ingesting a report about an existing village keeps its id, name,
    district, coordinates, population and comments; besides [activeCases],
    [status], [lastReported], [lastAshaWorker] and [dominantSymptoms], the
    handler of [src/App.tsx] also overwrites [lastAnalysis].  The object built
    by the copy of the handler in [part_003] keeps [lastAnalysis] too. *)
Theorem ingestion_frame out villages report villageName village :
  find (has_id (CaseReport.villageId report)) villages = Some village →
  let updated := updatedVillageOf JSON_parse out villages report villageName in
  kept_fields village updated
  ∧ Village.lastAnalysis updated
    = Some (analysisOf JSON_parse out villages report villageName)
  ∧ (∀ analysis now,
       only_five_modified village (Part003.updateVillage village report analysis now)).
Proof.
  intros Hfound. simpl. unfold updatedVillageOf.
  rewrite (resolveVillage_found _ _ _ _ _ Hfound). simpl.
  repeat split.
Qed.







End IngestionFrame.

(** ** Comments *)





(** ** Cluster detection *)

Section ClusterFacts.

Variable getDistance : Coordinates -> Coordinates -> number.
Variable js_add js_div : number -> number -> number.
Variable Date_now : nat -> Z.
Variable advisory : nat -> list Village.t -> HealthStatus -> Reply.

Lemma analyzeClusters_unfold villages :
  analyzeClusters getDistance js_add js_div Date_now advisory villages
  = scan getDistance js_add js_div Date_now advisory 0
      (filter (fun v => Village.status v ≠ GREEN) villages) ∅ [].
Proof. reflexivity. Qed.

Lemma neighbours_nil v1 currentCluster processed :
  neighbours getDistance v1 [] currentCluster processed = (currentCluster, processed).
Proof. reflexivity. Qed.

Lemma neighbours_cons v1 v2 later currentCluster processed :
  neighbours getDistance v1 (v2 :: later) currentCluster processed
  = if bool_decide (Village.id v2 ∈ processed)
    then neighbours getDistance v1 later currentCluster processed
    else if num_leb (getDistance (Village.coordinates v1) (Village.coordinates v2))
              DISTANCE_THRESHOLD
    then neighbours getDistance v1 later (currentCluster ++ [v2])
           ({[Village.id v2]} ∪ processed)
    else neighbours getDistance v1 later currentCluster processed.
Proof. reflexivity. Qed.

Local Abbreviation neighbours := (neighbours getDistance).
Local Abbreviation makeCluster := (makeCluster js_add js_div Date_now advisory).
Local Abbreviation scan := (scan getDistance js_add js_div Date_now advisory).
Local Abbreviation analyzeClusters :=
  (analyzeClusters getDistance js_add js_div Date_now advisory).

(** The inner loop only appends, and only villages that come after the
    anchor. *)
Lemma neighbours_appends v1 later : ∀ currentCluster processed,
  ∃ extra, fst (neighbours v1 later currentCluster processed) = currentCluster ++ extra
           ∧ ∀ v, v ∈ extra → v ∈ later.
Proof.
  induction later as [| v2 later IH]; intros cur processed; simpl.
  - exists []. split; [by rewrite app_nil_r | intros v Hv; exact Hv].
  - destruct (bool_decide (Village.id v2 ∈ processed)).
    + destruct (IH cur processed) as (extra & Heq & Hin).
      exists extra. split; [exact Heq | intros v Hv; right; by apply Hin].
    + destruct (num_leb _ _).
      * destruct (IH (cur ++ [v2]) ({[Village.id v2]} ∪ processed))
          as (extra & Heq & Hin).
        exists (v2 :: extra). split.
        -- rewrite Heq, <- app_assoc. reflexivity.
        -- intros v Hv. apply elem_of_cons in Hv as [-> | Hv]; [left | right; by apply Hin].
      * destruct (IH cur processed) as (extra & Heq & Hin).
        exists extra. split; [exact Heq | intros v Hv; right; by apply Hin].
Qed.

Lemma scan_cons i v1 later processed clusters :
  scan i (v1 :: later) processed clusters
  = if bool_decide (Village.id v1 ∈ processed)
    then scan (S i) later processed clusters
    else
      let '(currentCluster, processed') :=
        neighbours v1 later [v1] ({[Village.id v1]} ∪ processed) in
      if 2 <=? length currentCluster
      then scan (S i) later processed' (clusters ++ [makeCluster i currentCluster])
      else scan (S i) later processed' clusters.
Proof. reflexivity. Qed.

(** Every cluster the outer loop adds is built from at least two of the
    villages it was given. *)
Lemma scan_adds unsafe : ∀ i processed clusters c,
  c ∈ scan i unsafe processed clusters →
  c ∈ clusters
  ∨ ∃ j members, c = makeCluster j members
                 ∧ 2 ≤ length members
                 ∧ ∀ v, v ∈ members → v ∈ unsafe.
Proof.
  induction unsafe as [| v1 later IH]; intros i processed clusters c.
  - simpl. by left.
  - rewrite scan_cons.
    assert (Hlater : ∀ i' p' cl',
              c ∈ scan i' later p' cl' →
              c ∈ cl' ∨ ∃ j members, c = makeCluster j members
                                     ∧ 2 ≤ length members
                                     ∧ ∀ v, v ∈ members → v ∈ v1 :: later).
    { intros i' p' cl' Hc. destruct (IH _ _ _ _ Hc) as [? | (j & ms & ? & ? & Hms)].
      - by left.
      - right. exists j, ms. repeat split; try assumption.
        intros v Hv. right. by apply Hms. }
    destruct (bool_decide (Village.id v1 ∈ processed)); [apply Hlater |].
    destruct (neighbours v1 later [v1] ({[Village.id v1]} ∪ processed))
      as [currentCluster processed'] eqn:Hn.
    destruct (neighbours_appends v1 later [v1] ({[Village.id v1]} ∪ processed))
      as (extra & Heq & Hin).
    rewrite Hn in Heq. simpl in Heq. cbv beta iota zeta.
    destruct (2 <=? length currentCluster) eqn:Hlen; [| apply Hlater].
    intros Hc. destruct (Hlater _ _ _ Hc) as [Hold | Hnew]; [| by right].
    apply elem_of_app in Hold as [Hold | Hold]; [by left |].
    apply list_elem_of_singleton in Hold. right.
    exists i, currentCluster. split; [exact Hold |]. split.
    + by apply Nat.leb_le.
    + intros v Hv. rewrite Heq in Hv.
      apply elem_of_cons in Hv as [-> | Hv]; [left | right; by apply Hin].
Qed.

Lemma analyzeClusters_members villages c :
  c ∈ analyzeClusters villages →
  ∃ j members, c = makeCluster j members
               ∧ 2 ≤ length members
               ∧ ∀ v, v ∈ members → v ∈ villages ∧ Village.status v ≠ GREEN.
Proof.
  rewrite analyzeClusters_unfold. intros Hc.
  apply scan_adds in Hc as [Hc | (j & members & Hmk & Hlen & Hin)].
  - by apply elem_of_nil in Hc.
  - exists j, members. split; [exact Hmk |]. split; [exact Hlen |].
    intros v Hv. specialize (Hin v Hv).
    apply list_elem_of_filter in Hin as [Hst Hvs]. by split.
Qed.

(** C5. Whatever the villages, the distances and the answers of the
    service, every cluster that is returned lists at least two village
    ids. *)
Theorem clusters_have_two_members villages c :
  c ∈ analyzeClusters villages → 2 ≤ length (OutbreakCluster.villageIds c).
Proof.
  intros Hc. apply analyzeClusters_members in Hc as (j & members & -> & Hlen & _).
  simpl. by rewrite length_map.
Qed.

Lemma severityOf_red members :
  severityOf members = RED ↔ ∃ v, v ∈ members ∧ Village.status v = RED.
Proof.
  unfold severityOf. destruct (existsb is_red members) eqn:He.
  - apply existsb_exists in He as (v & Hin & Hred).
    split; [| reflexivity]. intros _. exists v.
    split; [by apply list_elem_of_In | by apply bool_decide_eq_true in Hred].
  - split; [discriminate |]. intros (v & Hin & Hred). exfalso.
    assert (existsb is_red members = true); [| congruence].
    apply existsb_exists. exists v.
    split; [by apply list_elem_of_In | by apply bool_decide_eq_true].
Qed.

Lemma severityOf_cases members : severityOf members = RED ∨ severityOf members = YELLOW.
Proof. unfold severityOf. destruct (existsb is_red members); auto. Qed.

Lemma same_id_same_village (villages : list Village.t) (v w : Village.t) :
  NoDup (map Village.id villages) →
  v ∈ villages → w ∈ villages → Village.id v = Village.id w → v = w.
Proof.
  induction villages as [| u us IH]; simpl; intros Hnd Hv Hw Hid.
  - by apply elem_of_nil in Hv.
  - apply NoDup_cons in Hnd as [Hu Hnd].
    apply elem_of_cons in Hv as [-> | Hv]; apply elem_of_cons in Hw as [-> | Hw].
    + reflexivity.
    + exfalso. apply Hu. rewrite Hid. apply list_elem_of_fmap. eauto.
    + exfalso. apply Hu. rewrite <- Hid. apply list_elem_of_fmap. eauto.
    + by apply IH.
Qed.

(** C6. Every cluster that is returned lists the ids of its members, which
    are villages of the input that are not GREEN; its severity is RED exactly
    when one of the members is RED, and YELLOW otherwise.  When ids identify
    villages, the members are the villages whose id the cluster lists. *)
Theorem cluster_severity villages c :
  c ∈ analyzeClusters villages →
  ∃ members,
    OutbreakCluster.villageIds c = map Village.id members
    ∧ (∀ v, v ∈ members → v ∈ villages ∧ Village.status v ≠ GREEN)
    ∧ (OutbreakCluster.severity c = RED ↔
       ∃ v, v ∈ members ∧ Village.status v = RED)
    ∧ ((¬ ∃ v, v ∈ members ∧ Village.status v = RED) →
       OutbreakCluster.severity c = YELLOW)
    ∧ (NoDup (map Village.id villages) →
       (OutbreakCluster.severity c = RED ↔
        ∃ v, v ∈ villages ∧ Village.id v ∈ OutbreakCluster.villageIds c
             ∧ Village.status v = RED)).
Proof.
  intros Hc. apply analyzeClusters_members in Hc as (j & members & -> & Hlen & Hin).
  exists members. simpl. split; [reflexivity |]. split; [exact Hin |].
  split; [apply severityOf_red |]. split.
  - intros Hno. destruct (severityOf_cases members) as [Hred | Hy]; [| exact Hy].
    apply severityOf_red in Hred. contradiction.
  - intros Hnd. rewrite severityOf_red. split.
    + intros (v & Hv & Hred). exists v. split; [by apply Hin |].
      split; [| exact Hred]. apply list_elem_of_fmap. eauto.
    + intros (v & Hv & Hid & Hred).
      apply list_elem_of_fmap in Hid as (m & Hid & Hm).
      exists m. split; [exact Hm |].
      destruct (Hin m Hm) as [Hmv _].
      by rewrite <- (same_id_same_village villages v m Hnd Hv Hmv Hid).
Qed.

(** Membership in the set of processed ids, by cases on its elements. *)
Ltac processed_ids :=
  rewrite ?elem_of_union, ?elem_of_singleton, ?elem_of_empty;
  intuition congruence.

Lemma three_distinct (a b c : string) :
  NoDup [a; b; c] → a ≠ b ∧ a ≠ c ∧ b ≠ c.
Proof.
  intros Hnd. apply NoDup_cons in Hnd as [Ha Hnd]. apply NoDup_cons in Hnd as [Hb _].
  rewrite !not_elem_of_cons in Ha. rewrite !not_elem_of_cons in Hb. tauto.
Qed.

(** Three unsafe villages with an anchor that is near the second and far
    from the third: the anchor takes the second, the third stays alone and is
    dropped. *)
Lemma star_grouping A B C :
  Village.status A ≠ GREEN → Village.status B ≠ GREEN → Village.status C ≠ GREEN →
  NoDup [Village.id A; Village.id B; Village.id C] →
  num_leb (getDistance (Village.coordinates A) (Village.coordinates B))
    DISTANCE_THRESHOLD = true →
  num_leb (getDistance (Village.coordinates A) (Village.coordinates C))
    DISTANCE_THRESHOLD = false →
  analyzeClusters [A; B; C] = [makeCluster 0 [A; B]].
Proof.
  intros HA HB HC Hids Hnear Hfar.
  destruct (three_distinct _ _ _ Hids) as (Hab & Hac & Hbc).
  rewrite analyzeClusters_unfold.
  rewrite !filter_cons_True by assumption. rewrite filter_nil.
  rewrite scan_cons.
  rewrite bool_decide_eq_false_2 by processed_ids.
  rewrite neighbours_cons.
  rewrite (bool_decide_eq_false_2 (Village.id B ∈ _)) by processed_ids.
  rewrite Hnear, neighbours_cons.
  rewrite (bool_decide_eq_false_2 (Village.id C ∈ _)) by processed_ids.
  rewrite Hfar, neighbours_nil. cbv beta iota zeta. cbn [app length Nat.leb].
  rewrite scan_cons.
  rewrite bool_decide_eq_true_2 by processed_ids.
  rewrite scan_cons.
  rewrite bool_decide_eq_false_2 by processed_ids.
  reflexivity.
Qed.

(** C4. Three villages that are not GREEN, with distinct ids, given in the
    order A, B, C, with A and B 10 km apart, B and C 10 km apart, and A and C
    25 km apart: exactly one cluster is returned, its members are A and B,
    and C is in no cluster. *)
Theorem non_transitive_grouping A B C :
  Village.status A ≠ GREEN → Village.status B ≠ GREEN → Village.status C ≠ GREEN →
  NoDup [Village.id A; Village.id B; Village.id C] →
  getDistance (Village.coordinates A) (Village.coordinates B) = decimal 10000 0 →
  getDistance (Village.coordinates B) (Village.coordinates C) = decimal 10000 0 →
  getDistance (Village.coordinates A) (Village.coordinates C) = decimal 25000 0 →
  ∃ c, analyzeClusters [A; B; C] = [c]
       ∧ OutbreakCluster.villageIds c = [Village.id A; Village.id B]
       ∧ ∀ c', c' ∈ analyzeClusters [A; B; C] →
           Village.id C ∉ OutbreakCluster.villageIds c'.
Proof.
  intros HA HB HC Hids Hab _ Hac.
  assert (Heq : analyzeClusters [A; B; C] = [makeCluster 0 [A; B]]).
  { apply star_grouping; try assumption.
    - rewrite Hab. reflexivity.
    - rewrite Hac. reflexivity. }
  destruct (three_distinct _ _ _ Hids) as (_ & Hac' & Hbc').
  exists (makeCluster 0 [A; B]). split; [exact Heq |]. split; [reflexivity |].
  intros c' Hc'. rewrite Heq in Hc'. apply list_elem_of_singleton in Hc'. subst c'.
  simpl. rewrite !not_elem_of_cons. repeat split; try congruence.
  apply not_elem_of_nil.
Qed.

End ClusterFacts.

(** ** The properties on the seed data *)




(** C7 on the two locations of the specification. *)
Lemma new_village_coordinates_witness :
  let good := reportFor "new-1" "18.3,83.5" "Fever" 1 in
  let bad := reportFor "new-1" "bad input" "Fever" 1 in
  find (has_id "new-1") INITIAL_VILLAGES = None
  ∧ Village.coordinates
      (updatedVillageOf sampleParse outFailed INITIAL_VILLAGES good "Rampur")
    = {| lat := decimal 183 (-1); lng := decimal 835 (-1) |}
  ∧ Village.coordinates
      (updatedVillageOf sampleParse outFailed INITIAL_VILLAGES bad "Rampur")
    = defaultCenter
  ∧ length (handleReportSubmit sampleParse outFailed INITIAL_VILLAGES good "Rampur") = 6.
Proof.
  intros good bad.
  assert (Hnew : find (has_id "new-1") INITIAL_VILLAGES = None) by reflexivity.
  destruct (new_village_coordinates sampleParse outFailed INITIAL_VILLAGES good "Rampur"
              Hnew) as (Hstate & _ & Hgood & _).
  destruct (new_village_coordinates sampleParse outFailed INITIAL_VILLAGES bad "Rampur"
              Hnew) as (_ & _ & Hbad & _).
  split; [exact Hnew |].
  split; [rewrite Hgood; reflexivity |].
  split; [rewrite Hbad; reflexivity |].
  rewrite Hstate, length_app. reflexivity.
Defined.

(** The claim of C10 fails on the seed data: Pedana has no cached analysis
    before the report and has one after it. *)
Lemma frame_counterexample :
  let report := reportFor "v1" "16.2556, 81.1667" "Fever, Chills" 5 in
  ∃ village,
    find (has_id (CaseReport.villageId report)) INITIAL_VILLAGES = Some village
    ∧ ¬ only_five_modified village
          (updatedVillageOf sampleParse outFailed INITIAL_VILLAGES report "Pedana").
Proof.
  intros report. eexists. split; [reflexivity |].
  intros [_ Hla]. vm_compute in Hla. discriminate Hla.
Qed.

(** C10 on the seed data. *)
Lemma ingestion_frame_witness :
  let report := reportFor "v1" "16.2556, 81.1667" "Fever, Chills" 5 in
  let updated := updatedVillageOf sampleParse outFailed INITIAL_VILLAGES report "Pedana" in
  Village.name updated = "Pedana"
  ∧ Village.population updated = 3100%Z
  ∧ Village.comments updated = []
  ∧ Village.lastAnalysis updated = Some fallbackAnalysis.
Proof.
  intros report updated.
  assert (Hfound : find (has_id (CaseReport.villageId report)) INITIAL_VILLAGES
                   = Some (seed "v1" "Pedana" "Krishna" 162556 811667 3100 2 GREEN
                             "today" ["Mild Fever"])) by reflexivity.
  destruct (ingestion_frame sampleParse outFailed INITIAL_VILLAGES report "Pedana" _ Hfound)
    as ((_ & Hname & _ & _ & Hpop & Hcom) & Hla & _).
  fold updated in Hname, Hpop, Hcom, Hla.
  rewrite Hname, Hpop, Hcom, Hla. repeat split; reflexivity.
Defined.





(** ** The properties on three villages in a row *)

Example rowClusters_value :
  rowClusters
  = [ {| OutbreakCluster.id := "cluster-1700000000000-0";
         OutbreakCluster.villageIds := ["A"; "B"];
         OutbreakCluster.center := {| lat := Finite (1 # 2); lng := Finite 0 |};
         OutbreakCluster.radius := Finite (7500 # 1);
         OutbreakCluster.severity := RED;
         OutbreakCluster.aiAdvice := "Cluster detected. Coordinate resources." |} ].
Proof. vm_compute. reflexivity. Qed.

Lemma rowCluster_returned : rowCluster ∈ rowClusters.
Proof. vm_compute. left. Defined.

Lemma row_ids_distinct : NoDup (Village.id <$> [rowA; rowB; rowC]).
Proof.
  simpl. repeat (apply NoDup_cons; split);
    rewrite ?not_elem_of_cons, ?elem_of_nil; try apply NoDup_nil_2;
    intuition discriminate.
Defined.

(** C4 on the row: A takes B, and C, 25 km from A, is left out although it
    is 10 km from B. *)
Lemma non_transitive_grouping_witness :
  tableDistance (Village.coordinates rowA) (Village.coordinates rowB) = decimal 10000 0
  ∧ tableDistance (Village.coordinates rowB) (Village.coordinates rowC) = decimal 10000 0
  ∧ tableDistance (Village.coordinates rowA) (Village.coordinates rowC) = decimal 25000 0
  ∧ ∃ c, rowClusters = [c]
         ∧ OutbreakCluster.villageIds c = ["A"; "B"]
         ∧ ∀ c', c' ∈ rowClusters → "C" ∉ OutbreakCluster.villageIds c'.
Proof.
  split; [reflexivity |]. split; [reflexivity |]. split; [reflexivity |].
  apply (non_transitive_grouping tableDistance exact_add exact_div frozenClock
           serviceDown rowA rowB rowC).
  - discriminate.
  - discriminate.
  - discriminate.
  - exact row_ids_distinct.
  - reflexivity.
  - reflexivity.
  - reflexivity.
Defined.

(** C5 on the row. *)
Lemma clusters_have_two_members_witness :
  rowCluster ∈ rowClusters ∧ 2 ≤ length (OutbreakCluster.villageIds rowCluster).
Proof.
  split; [exact rowCluster_returned |].
  apply (clusters_have_two_members tableDistance exact_add exact_div frozenClock
           serviceDown [rowA; rowB; rowC] rowCluster rowCluster_returned).
Defined.

(** C6 on the row: the cluster is RED because B is. *)
Lemma cluster_severity_witness :
  rowCluster ∈ rowClusters
  ∧ (OutbreakCluster.severity rowCluster = RED ↔
     ∃ v, v ∈ [rowA; rowB; rowC]
          ∧ Village.id v ∈ OutbreakCluster.villageIds rowCluster
          ∧ Village.status v = RED).
Proof.
  split; [exact rowCluster_returned |].
  destruct (cluster_severity tableDistance exact_add exact_div frozenClock serviceDown
              [rowA; rowB; rowC] rowCluster rowCluster_returned)
    as (members & _ & _ & _ & _ & Hids).
  apply Hids. exact row_ids_distinct.
Defined.

(** * More properties of the cluster detector *)

Section ClusterStructure.

Variable getDistance : Coordinates -> Coordinates -> number.
Variable js_add js_div : number -> number -> number.
Variable Date_now : nat -> Z.
Variable advisory : nat -> list Village.t -> HealthStatus -> Reply.

Local Abbreviation neighbours := (neighbours getDistance).
Local Abbreviation near := (within_threshold getDistance).
Local Abbreviation memberLists := (memberLists getDistance).
Local Abbreviation makeCluster := (makeCluster js_add js_div Date_now advisory).
Local Abbreviation scan := (scan getDistance js_add js_div Date_now advisory).
Local Abbreviation analyzeClusters :=
  (analyzeClusters getDistance js_add js_div Date_now advisory).
Local Abbreviation unsafeOf :=
  (filter (fun v : Village.t => Village.status v ≠ GREEN)).
Local Abbreviation idsOf :=
  (fun gs : list (nat * list Village.t) =>
     concat (map (fun g => map Village.id (snd g)) gs)).

(** What the inner loop returns: the villages it appends come after the
    anchor in their order, were not processed, are within the threshold of
    the anchor and have distinct ids; what it leaves unprocessed is out of
    the threshold. *)
Lemma neighbours_spec v1 later : ∀ cur p,
  ∃ extra,
    fst (neighbours v1 later cur p) = cur ++ extra
    ∧ (∀ x, x ∈ snd (neighbours v1 later cur p) ↔ x ∈ p ∨ x ∈ map Village.id extra)
    ∧ (extra `sublist_of` later)
    ∧ NoDup (map Village.id extra)
    ∧ (∀ v, v ∈ extra → (Village.id v ∉ p) ∧ near v1 v)
    ∧ (∀ w, w ∈ later → Village.id w ∉ snd (neighbours v1 later cur p) → ¬ near v1 w).
Proof.
  induction later as [| v2 later IH]; intros cur p.
  - exists []. rewrite neighbours_nil. simpl. rewrite app_nil_r.
    split; [reflexivity |]. split; [intros x; rewrite elem_of_nil; tauto |].
    split; [constructor |]. split; [constructor |].
    split; intros v Hv; by apply elem_of_nil in Hv.
  - rewrite neighbours_cons. case_bool_decide as Hp.
    + destruct (IH cur p) as (extra & Hfst & Hsnd & Hsub & Hnd & Hin & Hfar).
      exists extra. split; [exact Hfst |]. split; [exact Hsnd |].
      split; [by apply sublist_cons |]. split; [exact Hnd |]. split; [exact Hin |].
      intros w Hw Hout. apply elem_of_cons in Hw as [-> | Hw]; [| by apply Hfar].
      exfalso. apply Hout, Hsnd. by left.
    + destruct (num_leb _ _) eqn:Hd.
      * destruct (IH (cur ++ [v2]) ({[Village.id v2]} ∪ p))
          as (extra & Hfst & Hsnd & Hsub & Hnd & Hin & Hfar).
        exists (v2 :: extra). split; [by rewrite Hfst, <- app_assoc |].
        split.
        { intros x. rewrite Hsnd, elem_of_union, elem_of_singleton. simpl.
          rewrite elem_of_cons. tauto. }
        split; [by apply sublist_skip |]. split.
        { simpl. apply NoDup_cons. split; [| exact Hnd].
          intros Hv2. apply list_elem_of_fmap in Hv2 as (v & Hid & Hv).
          destruct (Hin v Hv) as [Hnot _]. apply Hnot.
          rewrite elem_of_union, elem_of_singleton. by left. }
        split.
        { intros v Hv. apply elem_of_cons in Hv as [-> | Hv]; [by split |].
          destruct (Hin v Hv) as [Hnot Hnear]. split; [| exact Hnear].
          intros Hvp. apply Hnot. rewrite elem_of_union. by right. }
        intros w Hw Hout. apply elem_of_cons in Hw as [-> | Hw]; [| by apply Hfar].
        exfalso. apply Hout, Hsnd. left.
        rewrite elem_of_union, elem_of_singleton. by left.
      * destruct (IH cur p) as (extra & Hfst & Hsnd & Hsub & Hnd & Hin & Hfar).
        exists extra. split; [exact Hfst |]. split; [exact Hsnd |].
        split; [by apply sublist_cons |]. split; [exact Hnd |]. split; [exact Hin |].
        intros w Hw Hout. apply elem_of_cons in Hw as [-> | Hw]; [| by apply Hfar].
        unfold within_threshold. by rewrite Hd.
Qed.

Lemma memberLists_cons i v1 later p :
  memberLists i (v1 :: later) p
  = if bool_decide (Village.id v1 ∈ p)
    then memberLists (S i) later p
    else
      let '(currentCluster, p') := neighbours v1 later [v1] ({[Village.id v1]} ∪ p) in
      if 2 <=? length currentCluster
      then (i, currentCluster) :: memberLists (S i) later p'
      else memberLists (S i) later p'.
Proof. reflexivity. Qed.

(** The clusters are the member lists, one object each. *)
Lemma scan_memberLists unsafe : ∀ i p clusters,
  scan i unsafe p clusters
  = clusters ++ map (fun g => makeCluster (fst g) (snd g)) (memberLists i unsafe p).
Proof.
  induction unsafe as [| v1 later IH]; intros i p clusters.
  - simpl. by rewrite app_nil_r.
  - rewrite scan_cons, memberLists_cons.
    destruct (bool_decide (Village.id v1 ∈ p)); [apply IH |].
    destruct (neighbours v1 later [v1] ({[Village.id v1]} ∪ p)) as [cc p'].
    destruct (2 <=? length cc); [| apply IH].
    rewrite IH, <- app_assoc. reflexivity.
Qed.

Lemma analyzeClusters_memberLists villages :
  analyzeClusters villages
  = map (fun g => makeCluster (fst g) (snd g)) (memberLists 0 (unsafeOf villages) ∅).
Proof. rewrite analyzeClusters_unfold. apply (scan_memberLists _ 0 ∅ []). Qed.

Lemma villageIds_memberLists gs :
  concat (map OutbreakCluster.villageIds
            (map (fun g => makeCluster (fst g) (snd g)) gs))
  = idsOf gs.
Proof. induction gs as [| g gs IH]; simpl; [reflexivity | by rewrite IH]. Qed.

(** Every member list is an anchor followed by at least one village within
    its threshold, taken in order from the villages that were scanned. *)
Lemma memberLists_shape unsafe : ∀ i p,
  Forall (fun g => ∃ anchor others,
            snd g = anchor :: others
            ∧ others ≠ []
            ∧ (∀ o, o ∈ others → near anchor o)
            ∧ (snd g `sublist_of` unsafe))
    (memberLists i unsafe p).
Proof.
  induction unsafe as [| v1 later IH]; intros i p; [constructor |].
  assert (Hlater : ∀ i' p',
            Forall (fun g => ∃ anchor others,
                      snd g = anchor :: others ∧ others ≠ []
                      ∧ (∀ o, o ∈ others → near anchor o)
                      ∧ (snd g `sublist_of` v1 :: later))
              (memberLists i' later p')).
  { intros i' p'. eapply Forall_impl; [apply IH |].
    intros g (a & os & ? & ? & ? & ?). exists a, os.
    repeat split; try assumption. by apply sublist_cons. }
  rewrite memberLists_cons.
  destruct (bool_decide (Village.id v1 ∈ p)); [apply Hlater |].
  destruct (neighbours_spec v1 later [v1] ({[Village.id v1]} ∪ p))
    as (extra & Hfst & _ & Hsub & _ & Hin & _).
  destruct (neighbours v1 later [v1] ({[Village.id v1]} ∪ p)) as [cc p'].
  simpl in Hfst. subst cc.
  destruct (2 <=? length (v1 :: extra)) eqn:Hlen; [| apply Hlater].
  constructor; [| apply Hlater].
  exists v1, extra. simpl. split; [reflexivity |]. split.
  - intros ->. discriminate Hlen.
  - split; [intros o Ho; by apply Hin | by apply sublist_skip].
Qed.

(** No id is listed twice in the member lists, and none that was already
    processed. *)
Lemma memberLists_ids unsafe : ∀ i p,
  NoDup (idsOf (memberLists i unsafe p))
  ∧ ∀ x, x ∈ idsOf (memberLists i unsafe p) → x ∉ p.
Proof.
  induction unsafe as [| v1 later IH]; intros i p.
  - simpl. split; [constructor | intros x Hx; by apply elem_of_nil in Hx].
  - rewrite memberLists_cons. case_bool_decide as Hp; [apply IH |].
    destruct (neighbours_spec v1 later [v1] ({[Village.id v1]} ∪ p))
      as (extra & Hfst & Hsnd & _ & Hnd & Hin & _).
    destruct (neighbours v1 later [v1] ({[Village.id v1]} ∪ p)) as [cc p'].
    simpl in Hfst, Hsnd. subst cc.
    destruct (IH (S i) p') as [IHnd IHout].
    assert (Hp' : ∀ x, x ∈ p → x ∈ p').
    { intros x Hx. apply Hsnd. left. rewrite elem_of_union. by right. }
    assert (Hrest : ∀ x, x ∈ idsOf (memberLists (S i) later p') → x ∉ p).
    { intros x Hx Hxp. by apply (IHout x Hx), Hp'. }
    destruct (2 <=? length (v1 :: extra)); [| by split].
    assert (Hv1 : Village.id v1 ∉ map Village.id extra).
    { intros Hv. apply list_elem_of_fmap in Hv as (v & Hid & Hv).
      destruct (Hin v Hv) as [Hnot _]. apply Hnot.
      rewrite elem_of_union, elem_of_singleton. by left. }
    simpl. split.
    + apply NoDup_cons. split.
      * rewrite elem_of_app. intros [Hv | Hv]; [by apply Hv1 |].
        apply (IHout _ Hv), Hsnd. left. rewrite elem_of_union, elem_of_singleton. by left.
      * apply NoDup_app. split; [exact Hnd |]. split; [| exact IHnd].
        intros x Hx Hx'. apply (IHout _ Hx'), Hsnd. by right.
    + intros x Hx. apply elem_of_cons in Hx as [-> | Hx]; [exact Hp |].
      apply elem_of_app in Hx as [Hx | Hx]; [| by apply Hrest].
      apply list_elem_of_fmap in Hx as (v & -> & Hv).
      destruct (Hin v Hv) as [Hnot _]. intros Hvp. apply Hnot.
      rewrite elem_of_union. by right.
Qed.

(** X1. No village id is listed by two clusters, nor twice by one: the ids
    of all the clusters that are returned are pairwise distinct, whatever the
    input (ids that repeat in the input included). *)
Theorem clusters_disjoint villages :
  NoDup (concat (map OutbreakCluster.villageIds (analyzeClusters villages))).
Proof.
  rewrite analyzeClusters_memberLists, villageIds_memberLists.
  apply memberLists_ids.
Qed.

(** X2. Every cluster is a star: its first id is the id of an anchor, and
    every other id is the id of a village that is not GREEN and within the
    threshold of that anchor. *)
Theorem clusters_are_stars villages c :
  c ∈ analyzeClusters villages →
  ∃ anchor others,
    OutbreakCluster.villageIds c = Village.id anchor :: map Village.id others
    ∧ anchor ∈ villages ∧ Village.status anchor ≠ GREEN
    ∧ ∀ o, o ∈ others →
        o ∈ villages ∧ Village.status o ≠ GREEN ∧ within_threshold getDistance anchor o.
Proof.
  rewrite analyzeClusters_memberLists. intros Hc.
  apply list_elem_of_fmap in Hc as (g & -> & Hg).
  pose proof (memberLists_shape (unsafeOf villages) 0 ∅) as Hshape.
  rewrite Forall_forall in Hshape.
  destruct (Hshape g Hg) as (anchor & others & Heq & _ & Hnear & Hsub).
  assert (Hmem : ∀ v, v ∈ snd g → v ∈ villages ∧ Village.status v ≠ GREEN).
  { intros v Hv. apply (elem_of_sublist _ _ _ Hv) in Hsub as Hv'.
    clear Hv. rename Hv' into Hv.
    apply list_elem_of_filter in Hv as [? ?]. by split. }
  exists anchor, others. simpl. rewrite Heq. simpl.
  split; [reflexivity |].
  destruct (Hmem anchor) as [Ha Hs]; [rewrite Heq; left |].
  split; [exact Ha |]. split; [exact Hs |].
  intros o Ho. destruct (Hmem o) as [? ?]; [rewrite Heq; by right |].
  repeat split; try assumption. by apply Hnear.
Qed.

End ClusterStructure.

Section ClusterCounts.

Variable getDistance : Coordinates -> Coordinates -> number.
Variable js_add js_div : number -> number -> number.
Variable Date_now : nat -> Z.
Variable advisory : nat -> list Village.t -> HealthStatus -> Reply.

Local Abbreviation neighbours := (neighbours getDistance).
Local Abbreviation near := (within_threshold getDistance).
Local Abbreviation memberLists := (memberLists getDistance).
Local Abbreviation makeCluster := (makeCluster js_add js_div Date_now advisory).
Local Abbreviation analyzeClusters :=
  (analyzeClusters getDistance js_add js_div Date_now advisory).
Local Abbreviation unsafeOf :=
  (filter (fun v : Village.t => Village.status v ≠ GREEN)).
Local Abbreviation idsOf :=
  (fun gs : list (nat * list Village.t) =>
     concat (map (fun g => map Village.id (snd g)) gs)).

Lemma elem_of_concat {A} (x : A) (ls : list (list A)) :
  x ∈ concat ls ↔ ∃ l, l ∈ ls ∧ x ∈ l.
Proof.
  induction ls as [| l ls IH]; simpl.
  - rewrite elem_of_nil. split; [tauto | intros (l & Hl & _); by apply elem_of_nil in Hl].
  - rewrite elem_of_app, IH. split.
    + intros [Hx | (l' & Hl' & Hx)]; [exists l; split; [left | exact Hx] |].
      exists l'. split; [by right | exact Hx].
    + intros (l' & Hl' & Hx). apply elem_of_cons in Hl' as [-> | Hl']; [by left |].
      right. eauto.
Qed.

Lemma unsafe_count villages :
  length (unsafeOf villages) = redZones villages + yellowZones villages.
Proof.
  unfold redZones, yellowZones. induction villages as [| v vs IH]; [reflexivity |].
  rewrite !filter_cons.
  destruct (Village.status v) eqn:Hs; repeat case_decide; try congruence; simpl; lia.
Qed.

Lemma memberLists_two_each (gs : list (nat * list Village.t)) :
  Forall (fun g => 2 ≤ length (snd g)) gs → 2 * length gs ≤ length (idsOf gs).
Proof.
  induction 1 as [| g gs Hg _ IH]; simpl; [lia |].
  rewrite length_app, length_map. lia.
Qed.

Lemma memberLists_within unsafe i p x :
  x ∈ idsOf (memberLists i unsafe p) → x ∈ map Village.id unsafe.
Proof.
  intros Hx. apply elem_of_concat in Hx as (l & Hl & Hx).
  apply list_elem_of_fmap in Hl as (g & -> & Hg).
  pose proof (memberLists_shape getDistance unsafe i p) as Hshape.
  rewrite Forall_forall in Hshape.
  destruct (Hshape g Hg) as (_ & _ & _ & _ & _ & Hsub).
  apply list_elem_of_fmap in Hx as (v & -> & Hv).
  apply list_elem_of_fmap. exists v. split; [reflexivity |].
  by apply (elem_of_sublist _ _ _ Hv).
Qed.

Lemma memberLists_count unsafe i p :
  2 * length (memberLists i unsafe p) ≤ length unsafe.
Proof.
  etransitivity; [apply memberLists_two_each |].
  - eapply Forall_impl; [apply (memberLists_shape getDistance unsafe i p) |].
    intros g (a & os & -> & Hne & _). destruct os; [congruence | simpl; lia].
  - rewrite <- (length_map Village.id unsafe). apply submseteq_length, NoDup_submseteq.
    + apply memberLists_ids.
    + intros x. apply memberLists_within.
Qed.

(** X3. There are at most half as many clusters as villages that are not
    GREEN (the Red Zones and Warnings of the header); with fewer than two
    such villages, an empty list of villages included, no cluster is
    returned. *)
Theorem cluster_count villages :
  2 * length (analyzeClusters villages) ≤ redZones villages + yellowZones villages
  ∧ (redZones villages + yellowZones villages < 2 → analyzeClusters villages = []).
Proof.
  assert (Hcount : 2 * length (analyzeClusters villages)
                   ≤ redZones villages + yellowZones villages).
  { rewrite (analyzeClusters_memberLists getDistance), length_map, <- unsafe_count.
    apply memberLists_count. }
  split; [exact Hcount |]. intros Hfew.
  destruct (analyzeClusters villages); [reflexivity | simpl in Hcount; lia].
Qed.

(** Two villages that the member lists leave out are out of threshold, the
    earlier one as anchor. *)
Lemma memberLists_leftover unsafe : ∀ i p l1 v l2 w l3,
  NoDup (map Village.id unsafe) →
  unsafe = l1 ++ v :: l2 ++ w :: l3 →
  Village.id v ∉ p → Village.id w ∉ p →
  Village.id v ∉ idsOf (memberLists i unsafe p) →
  Village.id w ∉ idsOf (memberLists i unsafe p) →
  ¬ near v w.
Proof.
  induction unsafe as [| u later IH]; intros i p l1 v l2 w l3 Hnd Heq Hvp Hwp Hv Hw.
  - by destruct l1.
  - simpl in Hnd. apply NoDup_cons in Hnd as [Hu Hnd].
    assert (Hfresh : ∀ z, z ∈ later → Village.id z ≠ Village.id u).
    { intros z Hz Hid. apply Hu. rewrite <- Hid. apply list_elem_of_fmap. eauto. }
    rewrite memberLists_cons in Hv, Hw.
    destruct (neighbours_spec getDistance u later [u] ({[Village.id u]} ∪ p))
      as (extra & Hfst & Hsnd & _ & _ & _ & Hfar).
    destruct (neighbours u later [u] ({[Village.id u]} ∪ p)) as [cc p'].
    simpl in Hfst, Hsnd, Hfar. subst cc.
    destruct l1 as [| u' l1]; simpl in Heq; injection Heq as -> ->.
    + rewrite bool_decide_eq_false_2 in Hv, Hw by exact Hvp.
      assert (Hwl : w ∈ l2 ++ w :: l3) by (apply elem_of_app; right; left).
      destruct extra as [| e extra]; simpl in Hv, Hw.
      * apply Hfar; [exact Hwl |]. rewrite Hsnd, elem_of_union, elem_of_singleton.
        simpl. rewrite elem_of_nil. pose proof (Hfresh w Hwl). tauto.
      * exfalso. apply Hv. left.
    + assert (Hvl : v ∈ l1 ++ v :: l2 ++ w :: l3) by (apply elem_of_app; right; left).
      assert (Hwl : w ∈ l1 ++ v :: l2 ++ w :: l3).
      { apply elem_of_app. right. right. apply elem_of_app. right. left. }
      case_bool_decide as Hup; [by apply (IH (S i) p l1 v l2 w l3) |].
      assert (Hkeep : ∀ z, z ∈ l1 ++ v :: l2 ++ w :: l3 → Village.id z ∉ p →
                Village.id z ∉ idsOf
                  (if 2 <=? length (u' :: extra)
                   then (i, u' :: extra)
                          :: memberLists (S i) (l1 ++ v :: l2 ++ w :: l3) p'
                   else memberLists (S i) (l1 ++ v :: l2 ++ w :: l3) p') →
                (Village.id z ∉ p')
                ∧ (Village.id z ∉ idsOf (memberLists (S i) (l1 ++ v :: l2 ++ w :: l3) p'))).
      { intros z Hz Hzp Hzout. rewrite Hsnd, elem_of_union, elem_of_singleton.
        pose proof (Hfresh z Hz) as Hzu.
        destruct (2 <=? length (u' :: extra)) eqn:Hlen.
        - change (Village.id z ∉ map Village.id (u' :: extra)
                    ++ idsOf (memberLists (S i) (l1 ++ v :: l2 ++ w :: l3) p'))
            in Hzout.
          rewrite not_elem_of_app in Hzout. destruct Hzout as [Hze Hzrest].
          simpl in Hze. rewrite not_elem_of_cons in Hze. tauto.
        - destruct extra; [| discriminate Hlen].
          simpl. rewrite elem_of_nil. tauto. }
      destruct (Hkeep v Hvl Hvp Hv) as [Hvp' Hv'].
      destruct (Hkeep w Hwl Hwp Hw) as [Hwp' Hw'].
      by apply (IH (S i) p' l1 v l2 w l3).
Qed.

(** X4. When ids identify villages, two villages that are not GREEN and
    that no cluster lists are out of threshold of each other, measured from
    the one that comes first: the detector leaves no such pair ungrouped. *)
Theorem leftover_villages_far villages l1 v l2 w l3 :
  NoDup (map Village.id villages) →
  villages = l1 ++ v :: l2 ++ w :: l3 →
  Village.status v ≠ GREEN → Village.status w ≠ GREEN →
  (∀ c, c ∈ analyzeClusters villages → Village.id v ∉ OutbreakCluster.villageIds c) →
  (∀ c, c ∈ analyzeClusters villages → Village.id w ∉ OutbreakCluster.villageIds c) →
  ¬ within_threshold getDistance v w.
Proof.
  intros Hnd -> Hv Hw Hvout Hwout.
  assert (Hout : ∀ z,
            (∀ c, c ∈ analyzeClusters (l1 ++ v :: l2 ++ w :: l3) →
                  Village.id z ∉ OutbreakCluster.villageIds c) →
            Village.id z ∉ idsOf (memberLists 0 (unsafeOf (l1 ++ v :: l2 ++ w :: l3)) ∅)).
  { intros z Hz Hin.
    rewrite <- (villageIds_memberLists js_add js_div Date_now advisory) in Hin.
    rewrite <- (analyzeClusters_memberLists getDistance) in Hin.
    apply elem_of_concat in Hin as (l & Hl & Hzl).
    apply list_elem_of_fmap in Hl as (c & -> & Hc). by apply (Hz c Hc). }
  apply (memberLists_leftover (unsafeOf (l1 ++ v :: l2 ++ w :: l3)) 0 ∅
           (unsafeOf l1) v (unsafeOf l2) w (unsafeOf l3)).
  - eapply sublist_NoDup; [exact Hnd |].
    apply fmap_sublist, sublist_filter.
  - rewrite filter_app, filter_cons_True by exact Hv.
    rewrite filter_app, filter_cons_True by exact Hw. reflexivity.
  - apply not_elem_of_empty.
  - apply not_elem_of_empty.
  - by apply Hout.
  - by apply Hout.
Qed.

End ClusterCounts.

Section ClusterOrderAndAdvice.

Variable getDistance : Coordinates -> Coordinates -> number.
Variable js_add js_div : number -> number -> number.
Variable Date_now : nat -> Z.
Variable advisory : nat -> list Village.t -> HealthStatus -> Reply.

Local Abbreviation neighbours := (neighbours getDistance).
Local Abbreviation memberLists := (memberLists getDistance).
Local Abbreviation makeCluster := (makeCluster js_add js_div Date_now advisory).
Local Abbreviation analyzeClusters :=
  (analyzeClusters getDistance js_add js_div Date_now advisory).
Local Abbreviation unsafeOf :=
  (filter (fun v : Village.t => Village.status v ≠ GREEN)).

Lemma memberLists_anchors unsafe : ∀ i p,
  map (fun g => hd "" (map Village.id (snd g))) (memberLists i unsafe p)
  `sublist_of` map Village.id unsafe.
Proof.
  induction unsafe as [| v1 later IH]; intros i p; [constructor |].
  rewrite memberLists_cons. simpl map at 2.
  destruct (bool_decide (Village.id v1 ∈ p)); [apply sublist_cons, IH |].
  destruct (neighbours_spec getDistance v1 later [v1] ({[Village.id v1]} ∪ p))
    as (extra & Hfst & _).
  destruct (neighbours v1 later [v1] ({[Village.id v1]} ∪ p)) as [cc p'].
  simpl in Hfst. subst cc.
  destruct (2 <=? length (v1 :: extra)); [| apply sublist_cons, IH].
  simpl. apply sublist_skip, IH.
Qed.

Lemma unsafe_ids_sublist villages :
  map Village.id (unsafeOf villages) `sublist_of` map Village.id villages.
Proof. apply fmap_sublist, sublist_filter. Qed.

(** X5. The detector keeps the order of the input: the ids of a cluster
    come in the order of their villages in the input, and the clusters come in
    the order of their anchors (their first ids). *)
Theorem clusters_follow_input villages :
  (∀ c, c ∈ analyzeClusters villages →
        OutbreakCluster.villageIds c `sublist_of` map Village.id villages)
  ∧ (map (fun c => hd "" (OutbreakCluster.villageIds c)) (analyzeClusters villages)
     `sublist_of` map Village.id villages).
Proof.
  rewrite (analyzeClusters_memberLists getDistance). split.
  - intros c Hc. apply list_elem_of_fmap in Hc as (g & -> & Hg).
    pose proof (memberLists_shape getDistance (unsafeOf villages) 0 ∅) as Hshape.
    rewrite Forall_forall in Hshape.
    destruct (Hshape g Hg) as (_ & _ & _ & _ & _ & Hsub).
    simpl. etransitivity; [| apply unsafe_ids_sublist].
    by apply fmap_sublist.
  - rewrite map_map. simpl.
    etransitivity; [apply memberLists_anchors | apply unsafe_ids_sublist].
Qed.

(** X6. The advice of a cluster is never empty: it is the text of an answer
    of the service that was not empty, or else the fixed sentence, which is
    what a rejected call, a missing text and an empty text all give. *)
Theorem advice_never_empty villages c :
  c ∈ analyzeClusters villages →
  truthy (OutbreakCluster.aiAdvice c) = true
  ∧ (OutbreakCluster.aiAdvice c = "Cluster detected. Coordinate resources."
     ∨ ∃ i members,
         advisory i members (OutbreakCluster.severity c)
         = Resolved (Some (OutbreakCluster.aiAdvice c))).
Proof.
  intros Hc.
  apply (analyzeClusters_members getDistance) in Hc as (j & members & -> & _ & _).
  simpl. unfold adviceOf.
  destruct (advisory j members (severityOf members)) as [| [text |]] eqn:Ha;
    try (split; [reflexivity | by left]).
  destruct (truthy text) eqn:Ht; [| split; [reflexivity | by left]].
  split; [exact Ht |]. right. eauto.
Qed.

(** The detector reads the id, the coordinates and the status of a village
    and nothing else, the advice apart. *)
Section Unread.

Variable f : Village.t -> Village.t.
Hypothesis f_id : ∀ v, Village.id (f v) = Village.id v.
Hypothesis f_coordinates : ∀ v, Village.coordinates (f v) = Village.coordinates v.
Hypothesis f_status : ∀ v, Village.status (f v) = Village.status v.







End Unread.


End ClusterOrderAndAdvice.

(** * More properties of report ingestion *)

Lemma totalCases_from (villages : list Village.t) : ∀ acc : Z,
  fold_left (fun a v => (a + Village.activeCases v)%Z) villages acc
  = (acc + totalCases villages)%Z.
Proof.
  unfold totalCases. induction villages as [| v vs IH]; intros acc; simpl; [lia |].
  rewrite (IH (acc + Village.activeCases v)%Z), (IH (0 + Village.activeCases v)%Z). lia.
Qed.

Lemma totalCases_cons (v : Village.t) (villages : list Village.t) :
  totalCases (v :: villages) = (Village.activeCases v + totalCases villages)%Z.
Proof. unfold totalCases at 1. simpl. apply totalCases_from. Qed.

Lemma totalCases_app (vs ws : list Village.t) :
  totalCases (vs ++ ws) = (totalCases vs + totalCases ws)%Z.
Proof.
  induction vs as [| v vs IH]; simpl; [reflexivity |].
  rewrite !totalCases_cons, IH. lia.
Qed.

(** Replacing by id in a list where no village carries the id. *)
Lemma replace_absent (i : string) (u : Village.t) (villages : list Village.t) :
  (∀ v, v ∈ villages → Village.id v ≠ i) →
  map (fun v => if has_id i v then u else v) villages = villages.
Proof.
  induction villages as [| w ws IH]; intros Habs; simpl; [reflexivity |].
  destruct (has_id i w) eqn:Hw.
  - apply has_id_true in Hw. exfalso. apply (Habs w); [left | exact Hw].
  - f_equal. apply IH. intros v Hv. apply Habs. by right.
Qed.

Lemma replace_ids (i : string) (u : Village.t) (villages : list Village.t) :
  Village.id u = i →
  map Village.id (map (fun v => if has_id i v then u else v) villages)
  = map Village.id villages.
Proof.
  intros Hu. rewrite map_map. apply map_ext. intros v.
  destruct (has_id i v) eqn:Hv; [| reflexivity].
  apply has_id_true in Hv. congruence.
Qed.

Lemma replace_total (i : string) (u v : Village.t) (villages : list Village.t) :
  NoDup (map Village.id villages) →
  find (has_id i) villages = Some v →
  totalCases (map (fun w => if has_id i w then u else w) villages)
  = (totalCases villages - Village.activeCases v + Village.activeCases u)%Z.
Proof.
  induction villages as [| w ws IH]; simpl; intros Hnd Hf; [discriminate |].
  apply NoDup_cons in Hnd as [Hw Hnd]. rewrite !totalCases_cons.
  destruct (has_id i w) eqn:Hiw.
  - injection Hf as ->. apply has_id_true in Hiw.
    rewrite replace_absent; [lia |].
    intros z Hz Hid. apply Hw. rewrite Hiw, <- Hid. apply list_elem_of_fmap. eauto.
  - rewrite (IH Hnd Hf). lia.
Qed.

Lemma find_replaced (i : string) (u w : Village.t) (villages : list Village.t) :
  has_id i u = true →
  find (has_id i) villages = Some w →
  find (has_id i) (map (fun v => if has_id i v then u else v) villages) = Some u.
Proof.
  intros Hu. induction villages as [| z zs IH]; simpl; [discriminate |].
  destruct (has_id i z) eqn:Hz; simpl.
  - by rewrite Hu.
  - rewrite Hz. exact IH.
Qed.

Lemma find_appended (i : string) (u : Village.t) (villages : list Village.t) :
  has_id i u = true →
  find (has_id i) villages = None →
  find (has_id i) (villages ++ [u]) = Some u.
Proof.
  intros Hu. induction villages as [| z zs IH]; simpl.
  - by rewrite Hu.
  - destruct (has_id i z); [discriminate | exact IH].
Qed.

Section IngestionState.

Variable JSON_parse : string -> option AIAnalysisResult.t.

Implicit Types (out : Outside) (villages : list Village.t)
  (report : CaseReport.t) (villageName : string).

Lemma updatedVillageOf_id out villages report villageName :
  Village.id (updatedVillageOf JSON_parse out villages report villageName)
  = CaseReport.villageId report.
Proof. apply (resolveVillage_id out villages report villageName). Qed.

Lemma handleReportSubmit_ids out villages report villageName :
  map Village.id (handleReportSubmit JSON_parse out villages report villageName)
  = match find (has_id (CaseReport.villageId report)) villages with
    | Some _ => map Village.id villages
    | None => map Village.id villages ++ [CaseReport.villageId report]
    end.
Proof.
  destruct (find (has_id (CaseReport.villageId report)) villages) as [v |] eqn:Hf.
  - rewrite (handleReportSubmit_found _ _ _ _ _ _ Hf).
    apply replace_ids, updatedVillageOf_id.
  - rewrite (handleReportSubmit_new _ _ _ _ _ Hf), map_app. f_equal.
    cbn [map]. by rewrite updatedVillageOf_id.
Qed.

(** X8. Ingestion never removes a village and never touches a village with
    another id: the ids stay in place, one id being appended when the report
    is about an unknown village, every village with another id stays where it
    was, unchanged, and ids that were unique stay unique. *)
Theorem ingestion_state_frame out villages report villageName :
  let villages' := handleReportSubmit JSON_parse out villages report villageName in
  (map Village.id villages' = map Village.id villages
   ∨ map Village.id villages'
     = map Village.id villages ++ [CaseReport.villageId report]
     ∧ CaseReport.villageId report ∉ map Village.id villages)
  ∧ (∀ i v, villages !! i = Some v →
            Village.id v ≠ CaseReport.villageId report → villages' !! i = Some v)
  ∧ (NoDup (map Village.id villages) → NoDup (map Village.id villages')).
Proof.
  cbv zeta.
  pose proof (handleReportSubmit_ids out villages report villageName) as Hids.
  destruct (find (has_id (CaseReport.villageId report)) villages) as [w |] eqn:Hf.
  - split; [by left |]. split; [| by rewrite Hids].
    intros i v Hi Hid. rewrite (handleReportSubmit_found _ _ _ _ _ _ Hf).
    rewrite list_lookup_fmap, Hi. simpl.
    destruct (has_id _ v) eqn:Hv; [| reflexivity].
    by apply has_id_true in Hv.
  - assert (Hfresh : CaseReport.villageId report ∉ map Village.id villages).
    { intros Hin. apply list_elem_of_fmap in Hin as (v & Hid & Hv).
      by apply (proj1 (find_has_id_None _ _) Hf v Hv). }
    split; [right; by split |]. split.
    + intros i v Hi _. rewrite (handleReportSubmit_new _ _ _ _ _ Hf).
      by apply lookup_app_l_Some.
    + intros Hnd. rewrite Hids. apply NoDup_app. split; [exact Hnd |].
      split; [| apply NoDup_singleton].
      intros x Hx Hx'. apply list_elem_of_singleton in Hx'. by subst x.
Qed.

Lemma find_after_ingestion out villages report villageName :
  find (has_id (CaseReport.villageId report))
    (handleReportSubmit JSON_parse out villages report villageName)
  = Some (updatedVillageOf JSON_parse out villages report villageName).
Proof.
  pose proof (updatedVillageOf_id out villages report villageName) as Hid.
  apply has_id_true in Hid.
  destruct (find (has_id (CaseReport.villageId report)) villages) as [w |] eqn:Hf.
  - rewrite (handleReportSubmit_found _ _ _ _ _ _ Hf). by apply (find_replaced _ _ w).
  - rewrite (handleReportSubmit_new _ _ _ _ _ Hf). by apply find_appended.
Qed.

(** X9. After a report has been ingested the village is known: looking up
    the id of the report gives the committed village, so a second report with
    that id creates nothing, starts from the committed village, and adds its
    count to the sum of the first. *)
Theorem second_report_accumulates out1 out2 villages report1 report2 name1 name2 :
  CaseReport.villageId report2 = CaseReport.villageId report1 →
  let villages1 := handleReportSubmit JSON_parse out1 villages report1 name1 in
  let updated1 := updatedVillageOf JSON_parse out1 villages report1 name1 in
  let updated2 := updatedVillageOf JSON_parse out2 villages1 report2 name2 in
  find (has_id (CaseReport.villageId report1)) villages1 = Some updated1
  ∧ resolveVillage out2 villages1 report2 name2 = (updated1, false)
  ∧ length (handleReportSubmit JSON_parse out2 villages1 report2 name2) = length villages1
  ∧ Village.activeCases updated2
    = (Village.activeCases (fst (resolveVillage out1 villages report1 name1))
       + CaseReport.affectedCount report1 + CaseReport.affectedCount report2)%Z.
Proof.
  intros Hsame. cbv zeta.
  pose proof (find_after_ingestion out1 villages report1 name1) as Hfind.
  assert (Hres : resolveVillage out2 (handleReportSubmit JSON_parse out1 villages report1 name1)
                   report2 name2
                 = (updatedVillageOf JSON_parse out1 villages report1 name1, false)).
  { apply resolveVillage_found. by rewrite Hsame. }
  split; [exact Hfind |]. split; [exact Hres |]. split.
  - rewrite <- Hsame in Hfind.
    rewrite (handleReportSubmit_found _ _ _ _ _ _ Hfind). apply length_map.
  - unfold updatedVillageOf at 1. rewrite Hres. simpl.
    unfold updatedVillageOf. simpl. lia.
Qed.

(** X10. When ids identify villages, the total of active cases shown in
    the header grows by exactly the count of the report, for a known village
    and for a new one. *)
Theorem total_grows_by_count out villages report villageName :
  NoDup (map Village.id villages) →
  totalCases (handleReportSubmit JSON_parse out villages report villageName)
  = (totalCases villages + CaseReport.affectedCount report)%Z.
Proof.
  intros Hnd.
  destruct (find (has_id (CaseReport.villageId report)) villages) as [w |] eqn:Hf.
  - rewrite (handleReportSubmit_found _ _ _ _ _ _ Hf), (replace_total _ _ w _ Hnd Hf).
    unfold updatedVillageOf. rewrite (resolveVillage_found _ _ _ _ _ Hf). simpl. lia.
  - rewrite (handleReportSubmit_new _ _ _ _ _ Hf), totalCases_app, totalCases_cons.
    unfold updatedVillageOf. rewrite (resolveVillage_new _ _ _ _ Hf). simpl.
    unfold totalCases. simpl. lia.
Qed.

Lemma Array_from_Set_fresh (l : list string) : NoDup l → Array_from_Set l = l.
Proof. intros Hnd. apply (fold_Set_add_fresh l []). exact Hnd. Qed.

Lemma Array_from_Set_snoc (l : list string) (x : string) :
  NoDup l → Array_from_Set (l ++ [x]) = Set_add l x.
Proof.
  intros Hnd. unfold Array_from_Set. rewrite fold_left_app. simpl.
  fold (Array_from_Set l). by rewrite Array_from_Set_fresh.
Qed.

(** X11. The symptoms keep their order: on a list without repetitions, a
    symptom that is already listed changes nothing, and a new one goes to the
    end. *)
Theorem symptoms_keep_order out villages report villageName :
  let village := fst (resolveVillage out villages report villageName) in
  let first := firstSymptom (CaseReport.symptoms report) in
  let updated := updatedVillageOf JSON_parse out villages report villageName in
  NoDup (Village.dominantSymptoms village) →
  (first ∈ Village.dominantSymptoms village →
   Village.dominantSymptoms updated = Village.dominantSymptoms village)
  ∧ (first ∉ Village.dominantSymptoms village →
     Village.dominantSymptoms updated = Village.dominantSymptoms village ++ [first]).
Proof.
  cbv zeta. intros Hnd. unfold updatedVillageOf. simpl.
  rewrite (Array_from_Set_snoc _ _ Hnd). unfold Set_add.
  split; intros Hin.
  - by rewrite bool_decide_eq_true_2.
  - by rewrite bool_decide_eq_false_2.
Qed.

Lemma split_head_clean (c : ascii) (s : string) :
  includes c (hd "" (split c s)) = false.
Proof.
  induction s as [| d rest IH]; simpl; [reflexivity |].
  destruct (Ascii.eqb d c) eqn:Hd; [reflexivity |].
  destruct (split c rest) as [| p ps]; simpl in *; rewrite Hd; [reflexivity | exact IH].
Qed.

Lemma split_head_prefix (c : ascii) (s : string) :
  String.prefix (hd "" (split c s)) s = true.
Proof.
  induction s as [| d rest IH]; simpl; [reflexivity |].
  destruct (Ascii.eqb d c); [reflexivity |].
  destruct (split c rest) as [| p ps]; simpl in *;
    destruct (ascii_dec d d); try congruence; by destruct rest.
Qed.

Lemma firstSymptom_clean (symptoms : string) :
  truthy (firstSymptom symptoms) = true
  ∧ includes "," (firstSymptom symptoms) = false
  ∧ (firstSymptom symptoms = "Unknown"
     ∨ String.prefix (firstSymptom symptoms) symptoms = true).
Proof.
  unfold firstSymptom.
  replace (nth 0 (split "," symptoms) "") with (hd "" (split "," symptoms))
    by by destruct (split "," symptoms).
  destruct (truthy (hd "" (split "," symptoms))) eqn:Ht.
  - split; [exact Ht |]. split; [apply split_head_clean |].
    right. apply split_head_prefix.
  - split; [reflexivity |]. split; [reflexivity | by left].
Qed.

(** X12. The handler never records an empty symptom, nor one with a comma
    in it: what it adds is the text of the symptoms field up to its first
    comma, or Unknown when that text is empty. *)
Theorem added_symptom_clean out villages report villageName s :
  let village := fst (resolveVillage out villages report villageName) in
  let updated := updatedVillageOf JSON_parse out villages report villageName in
  s ∈ Village.dominantSymptoms updated →
  s ∈ Village.dominantSymptoms village
  ∨ (truthy s = true
     ∧ includes "," s = false
     ∧ (s = "Unknown" ∨ String.prefix s (CaseReport.symptoms report) = true)).
Proof.
  cbv zeta. unfold updatedVillageOf. simpl. intros Hs.
  apply Array_from_Set_elem, elem_of_app in Hs as [Hs | Hs]; [by left |].
  apply list_elem_of_singleton in Hs. subst s. right. apply firstSymptom_clean.
Qed.

Lemma parseCoordinates_located (workerLocation : string) :
  isNaN (lat (parseCoordinates workerLocation)) = false
  ∧ isNaN (lng (parseCoordinates workerLocation)) = false.
Proof.
  unfold parseCoordinates.
  destruct (truthy workerLocation && includes "," workerLocation);
    [| split; reflexivity].
  destruct (isNaN (nth 0 _ NaN)) eqn:Hlat; simpl; [split; reflexivity |].
  destruct (isNaN (nth 1 _ NaN)) eqn:Hlng; simpl; [split; reflexivity |].
  by split.
Qed.

(** X13. No village ever gets a coordinate that is not a number: when the
    two coordinates of every village are numbers before a report, they are
    after it, whatever the location text of the report. *)
Theorem coordinates_stay_numbers out villages report villageName :
  Forall located villages →
  Forall located (handleReportSubmit JSON_parse out villages report villageName).
Proof.
  intros Hall.
  assert (Hup : located (updatedVillageOf JSON_parse out villages report villageName)).
  { unfold located, updatedVillageOf, resolveVillage.
    destruct (find (has_id (CaseReport.villageId report)) villages) as [w |] eqn:Hf.
    - simpl. apply find_has_id_Some in Hf as [Hw _].
      rewrite Forall_forall in Hall. apply (Hall w Hw).
    - simpl. apply parseCoordinates_located. }
  destruct (find (has_id (CaseReport.villageId report)) villages) as [w |] eqn:Hf.
  - rewrite (handleReportSubmit_found _ _ _ _ _ _ Hf).
    apply Forall_fmap, Forall_forall. intros v Hv. simpl.
    destruct (has_id _ v); [exact Hup |].
    rewrite Forall_forall in Hall. by apply Hall.
  - rewrite (handleReportSubmit_new _ _ _ _ _ Hf).
    apply Forall_app. split; [exact Hall | by apply Forall_singleton].
Qed.

(** X14. The handler of [part_002] never adds a village and never changes
    an id; a report about an unknown village changes nothing at all. *)
Theorem Part002_never_adds out villages report :
  map Village.id (Part002.handleReportSubmit JSON_parse out villages report)
  = map Village.id villages
  ∧ ((∀ v, v ∈ villages → Village.id v ≠ CaseReport.villageId report) →
     Part002.handleReportSubmit JSON_parse out villages report = villages).
Proof.
  unfold Part002.handleReportSubmit.
  destruct (list_find _ villages) as [[idx v] |] eqn:Hf.
  - apply list_find_Some in Hf as (Hidx & Hid & _). split.
    + change (map Village.id ?l) with (Village.id <$> l).
      rewrite list_fmap_insert. simpl. apply list_insert_id.
      by rewrite list_lookup_fmap, Hidx.
    + intros Habs. exfalso. apply (Habs v); [| exact Hid].
      by apply list_elem_of_lookup_2 in Hidx.
  - split; reflexivity.
Qed.

Lemma fold_Set_add_extends (xs : list string) : ∀ acc,
  ∃ rest, fold_left Set_add xs acc = acc ++ rest.
Proof.
  induction xs as [| x xs IH]; intros acc; simpl.
  - exists []. by rewrite app_nil_r.
  - destruct (IH (Set_add acc x)) as [rest ->]. unfold Set_add.
    case_bool_decide; [by exists rest |].
    exists (x :: rest). by rewrite <- app_assoc.
Qed.

(** X15. In the handler of [part_002], a village that lists three distinct
    symptoms keeps exactly those: no later report adds or replaces one. *)
Theorem Part002_symptoms_frozen currentVillage report analysis now :
  NoDup (Village.dominantSymptoms currentVillage) →
  3 ≤ length (Village.dominantSymptoms currentVillage) →
  Village.dominantSymptoms (Part002.updateVillage currentVillage report analysis now)
  = take 3 (Village.dominantSymptoms currentVillage).
Proof.
  intros Hnd Hlen. simpl. unfold Part002.mergeSymptoms, Array_from_Set.
  rewrite fold_left_app. fold (Array_from_Set (Village.dominantSymptoms currentVillage)).
  rewrite (Array_from_Set_fresh _ Hnd).
  destruct (fold_Set_add_extends
              (map trim (split "," (CaseReport.symptoms report)))
              (Village.dominantSymptoms currentVillage)) as [rest ->].
  by apply take_app_le.
Qed.

End IngestionState.

(** * More properties of comments *)

Lemma handleAddComment_same_but_comments (commentText uuid now : string)
    (villages : list Village.t) (villageId : string) :
  Forall2 same_but_comments
    (handleAddComment commentText uuid now villages villageId) villages.
Proof.
  assert (Hrefl : ∀ v, same_but_comments v v).
  { intros v. unfold same_but_comments. repeat split. by exists []. }
  unfold handleAddComment. destruct (negb (truthy (trim commentText))).
  - apply Forall_Forall2_diag, Forall_forall. intros v _. apply Hrefl.
  - apply Forall2_fmap_l, Forall_Forall2_diag, Forall_forall. intros v _.
    unfold compose. cbv beta. destruct (has_id villageId v); [| apply Hrefl].
    unfold same_but_comments. simpl. repeat split.
    by exists [Comment.mk uuid "Public User" commentText now].
Qed.

Lemma totalCases_same (vs' vs : list Village.t) :
  Forall2 (fun v' v => Village.activeCases v' = Village.activeCases v) vs' vs →
  totalCases vs' = totalCases vs.
Proof.
  induction 1 as [| v' v vs' vs Hv _ IH]; [reflexivity |].
  by rewrite !totalCases_cons, Hv, IH.
Qed.

Lemma status_count_same (s : HealthStatus) (vs' vs : list Village.t) :
  Forall2 (fun v' v => Village.status v' = Village.status v) vs' vs →
  length (filter (fun v => Village.status v = s) vs')
  = length (filter (fun v => Village.status v = s) vs).
Proof.
  induction 1 as [| v' v vs' vs Hv _ IH]; [reflexivity |].
  rewrite !filter_cons, Hv. destruct (decide (Village.status v = s)); simpl; by rewrite IH.
Qed.

(** X16. A comment changes nothing but lists of comments: after
    [handleAddComment] the villages are the same ones in the same places, with
    every field but the comments as it was and no comment lost, so the three
    figures of the header are unchanged. *)
Theorem comment_changes_comments_only (commentText uuid now : string)
    (villages : list Village.t) (villageId : string) :
  let villages' := handleAddComment commentText uuid now villages villageId in
  Forall2 same_but_comments villages' villages
  ∧ totalCases villages' = totalCases villages
  ∧ redZones villages' = redZones villages
  ∧ yellowZones villages' = yellowZones villages.
Proof.
  cbv zeta.
  pose proof (handleAddComment_same_but_comments commentText uuid now villages villageId)
    as Hsame.
  split; [exact Hsame |]. split; [| split].
  - apply totalCases_same. eapply Forall2_impl; [exact Hsame |].
    by intros v' v (_ & _ & _ & _ & _ & Hac & _).
  - apply status_count_same. eapply Forall2_impl; [exact Hsame |].
    by intros v' v (_ & _ & _ & _ & _ & _ & Hst & _).
  - apply status_count_same. eapply Forall2_impl; [exact Hsame |].
    by intros v' v (_ & _ & _ & _ & _ & _ & Hst & _).
Qed.

(** X17. Comments are kept newest first: two comments that are not blank,
    added one after the other to a village, end up in front of the comments it
    had, the second before the first. *)
Theorem comments_newest_first (text1 uuid1 now1 text2 uuid2 now2 : string)
    (villages : list Village.t) (villageId : string) (i : nat) (v : Village.t) :
  truthy (trim text1) = true →
  truthy (trim text2) = true →
  villages !! i = Some v →
  Village.id v = villageId →
  ∃ v'',
    handleAddComment text2 uuid2 now2
      (handleAddComment text1 uuid1 now1 villages villageId) villageId !! i = Some v''
    ∧ Village.comments v''
      = Comment.mk uuid2 "Public User" text2 now2
        :: Comment.mk uuid1 "Public User" text1 now1
        :: Village.comments v.
Proof.
  intros Ht1 Ht2 Hi Hid. apply has_id_true in Hid.
  unfold handleAddComment. rewrite Ht1, Ht2. simpl.
  rewrite !list_lookup_fmap, Hi. simpl. rewrite Hid. simpl.
  unfold has_id in *. simpl. rewrite Hid. eexists. split; reflexivity.
Qed.

(** * The report form and the handler together *)

Lemma trim_not_blank (s : string) :
  String.eqb (trim s) "" = false → truthy (trim s) = true.
Proof. destruct (trim s); [discriminate | reflexivity]. Qed.

(** What a report that was sent says about the form it came from. *)
Lemma handleSubmit_sent uuid Date_now isoNow villages form report villageName form' :
  handleSubmit uuid Date_now isoNow villages form = (Sent report villageName, form') →
  truthy (AshaForm.workerName form) = true
  ∧ truthy (AshaForm.selectedVillageName form) = true
  ∧ villageName = AshaForm.selectedVillageName form
  ∧ form' = resetForm form
  ∧ CaseReport.workerName report = AshaForm.workerName form
  ∧ CaseReport.workerLocation report = AshaForm.workerLocation form
  ∧ CaseReport.villageId report
    = match find (sameName (AshaForm.selectedVillageName form)) villages with
      | Some matched => Village.id matched
      | None => ("new-" ++ string_of_Z Date_now)%string
      end
  ∧ (find (sameName (AshaForm.selectedVillageName form)) villages = None →
     includes "," (AshaForm.workerLocation form) = true)
  ∧ truthy (trim (CaseReport.diseaseType report)) = true.
Proof.
  unfold handleSubmit.
  destruct (truthy (AshaForm.workerName form)); simpl; [| discriminate].
  destruct (truthy (AshaForm.selectedVillageName form)); simpl; [| discriminate].
  destruct (find _ villages) as [m |] eqn:Hm; simpl.
  - intros H. injection H as <- <- <-. simpl. repeat split; try discriminate.
    destruct (String.eqb (trim (AshaForm.diseaseType form)) "") eqn:Hd;
      [reflexivity | by apply trim_not_blank].
  - destruct (truthy (AshaForm.workerLocation form)); simpl; [| discriminate].
    destruct (includes "," (AshaForm.workerLocation form)); simpl; [| discriminate].
    intros H. injection H as <- <- <-. simpl. repeat split.
    destruct (String.eqb (trim (AshaForm.diseaseType form)) "") eqn:Hd;
      [reflexivity | by apply trim_not_blank].
Qed.

(** X18. The form only sends reports that name a worker and a village and
    whose disease is not blank; the report is addressed to the first village
    with that name, letter case apart, or else to a fresh id, and then only if
    the location has a comma in it. *)
Theorem sent_report_is_complete uuid Date_now isoNow villages form report
    villageName form' :
  handleSubmit uuid Date_now isoNow villages form = (Sent report villageName, form') →
  truthy (CaseReport.workerName report) = true
  ∧ truthy villageName = true
  ∧ truthy (trim (CaseReport.diseaseType report)) = true
  ∧ ((∃ matched, find (sameName villageName) villages = Some matched
                 ∧ CaseReport.villageId report = Village.id matched)
     ∨ (find (sameName villageName) villages = None
        ∧ CaseReport.villageId report = ("new-" ++ string_of_Z Date_now)%string
        ∧ includes "," (CaseReport.workerLocation report) = true)).
Proof.
  intros Hsent.
  apply handleSubmit_sent in Hsent
    as (Hw & Hn & -> & _ & Hrw & Hloc & Hid & Hcomma & Hd).
  rewrite Hrw, Hloc. split; [exact Hw |]. split; [exact Hn |]. split; [exact Hd |].
  destruct (find _ villages) as [m |] eqn:Hm.
  - left. eauto.
  - right. repeat split; [exact Hid | by apply Hcomma].
Qed.

Lemma find_by_own_id (villages : list Village.t) (m : Village.t) :
  NoDup (map Village.id villages) → m ∈ villages →
  find (has_id (Village.id m)) villages = Some m.
Proof.
  intros Hnd Hm.
  destruct (find (has_id (Village.id m)) villages) as [w |] eqn:Hf.
  - apply find_has_id_Some in Hf as [Hw Hid].
    f_equal. by apply (same_id_same_village villages).
  - exfalso. by apply (proj1 (find_has_id_None _ _) Hf m Hm).
Qed.

Lemma find_sameName_Some (name : string) (villages : list Village.t) (m : Village.t) :
  find (sameName name) villages = Some m →
  m ∈ villages ∧ toLowerCase (Village.name m) = toLowerCase name.
Proof.
  intros H. apply find_some in H as [Hin Hn].
  split; [by apply list_elem_of_In | by apply String.eqb_eq].
Qed.

Section FormAndHandler.

Variable JSON_parse : string -> option AIAnalysisResult.t.

(** X19. A report that the form sends under the name of a monitored village
    is ingested into that village, whatever the letter case of the name that
    was typed: when ids identify villages, the handler starts from the village
    the form matched and creates none. *)
Theorem form_report_reaches_village uuid Date_now isoNow villages form report
    villageName form' matched out :
  NoDup (map Village.id villages) →
  handleSubmit uuid Date_now isoNow villages form = (Sent report villageName, form') →
  find (sameName villageName) villages = Some matched →
  toLowerCase (Village.name matched) = toLowerCase villageName
  ∧ resolveVillage out villages report villageName = (matched, false)
  ∧ map Village.id (handleReportSubmit JSON_parse out villages report villageName)
    = map Village.id villages.
Proof.
  intros Hnd Hsent Hm.
  apply handleSubmit_sent in Hsent as (_ & _ & -> & _ & _ & _ & Hid & _ & _).
  rewrite Hm in Hid.
  destruct (find_sameName_Some _ _ _ Hm) as [Hin Hname].
  assert (Hf : find (has_id (CaseReport.villageId report)) villages = Some matched).
  { rewrite Hid. by apply find_by_own_id. }
  split; [exact Hname |]. split; [by apply resolveVillage_found |].
  rewrite handleReportSubmit_ids. by rewrite Hf.
Qed.

Lemma find_sameName_app (name : string) (villages : list Village.t) (u : Village.t) :
  find (sameName name) villages = None →
  sameName name u = true →
  find (sameName name) (villages ++ [u]) = Some u.
Proof.
  intros Hnone Hu. induction villages as [| z zs IH]; simpl in *.
  - by rewrite Hu.
  - destruct (sameName name z); [discriminate | by apply IH].
Qed.

Lemma find_same_test (f g : Village.t → bool) (villages : list Village.t) :
  (∀ v, f v = g v) → find f villages = find g villages.
Proof.
  intros Hfg. induction villages as [| z zs IH]; simpl; [reflexivity |].
  by rewrite Hfg, IH.
Qed.

Lemma sameName_case (name name' : string) (v : Village.t) :
  toLowerCase name' = toLowerCase name → sameName name' v = sameName name v.
Proof. intros H. unfold sameName. by rewrite H. Qed.

(** X20. A report that the form sends under a name that matches no village
    creates that village, at the end of the list, under the name that was
    typed and a fresh id, at the coordinates read from a location that has a
    comma; from then on the form finds it by that name in any letter case, so
    that the next report goes to the same id and creates nothing. *)
Theorem new_village_is_found_by_name uuid Date_now isoNow villages form report
    villageName form' out uuid2 Date_now2 isoNow2 form2 :
  handleSubmit uuid Date_now isoNow villages form = (Sent report villageName, form') →
  find (sameName villageName) villages = None →
  (∀ v, v ∈ villages → Village.id v ≠ ("new-" ++ string_of_Z Date_now)%string) →
  truthy (AshaForm.workerName form2) = true →
  toLowerCase (AshaForm.selectedVillageName form2) = toLowerCase villageName →
  let created := updatedVillageOf JSON_parse out villages report villageName in
  let villages1 := handleReportSubmit JSON_parse out villages report villageName in
  villages1 = villages ++ [created]
  ∧ Village.name created = villageName
  ∧ Village.id created = ("new-" ++ string_of_Z Date_now)%string
  ∧ includes "," (CaseReport.workerLocation report) = true
  ∧ Village.coordinates created = coordinates_spec (CaseReport.workerLocation report)
  ∧ ∃ report2,
      fst (handleSubmit uuid2 Date_now2 isoNow2 villages1 form2)
      = Sent report2 (AshaForm.selectedVillageName form2)
      ∧ CaseReport.villageId report2 = Village.id created.
Proof.
  intros Hsent Hnone Hfresh Hw2 Hcase. cbv zeta.
  apply handleSubmit_sent in Hsent
    as (_ & Hn & -> & _ & _ & Hloc & Hid & Hcomma & _).
  rewrite Hnone in Hid.
  assert (Hf : find (has_id (CaseReport.villageId report)) villages = None).
  { apply find_has_id_None. by rewrite Hid. }
  pose proof (handleReportSubmit_new JSON_parse out villages report
                (AshaForm.selectedVillageName form) Hf) as Hstate.
  assert (Hname : Village.name
                    (updatedVillageOf JSON_parse out villages report
                       (AshaForm.selectedVillageName form))
                  = AshaForm.selectedVillageName form).
  { unfold updatedVillageOf. by rewrite (resolveVillage_new _ _ _ _ Hf). }
  assert (Hcoord : Village.coordinates
                     (updatedVillageOf JSON_parse out villages report
                        (AshaForm.selectedVillageName form))
                   = coordinates_spec (CaseReport.workerLocation report)).
  { unfold updatedVillageOf. rewrite (resolveVillage_new _ _ _ _ Hf). simpl.
    apply parseCoordinates_spec. }
  split; [exact Hstate |]. split; [exact Hname |].
  split; [by rewrite updatedVillageOf_id |].
  split; [rewrite Hloc; by apply Hcomma |]. split; [exact Hcoord |].
  assert (Hfound : find (sameName (AshaForm.selectedVillageName form2))
                     (handleReportSubmit JSON_parse out villages report
                        (AshaForm.selectedVillageName form))
                   = Some (updatedVillageOf JSON_parse out villages report
                             (AshaForm.selectedVillageName form))).
  { rewrite Hstate. apply find_sameName_app.
    - rewrite <- Hnone. apply find_same_test. intros v. by apply sameName_case.
    - unfold sameName. rewrite Hname, Hcase. apply String.eqb_refl. }
  assert (Hn2 : truthy (AshaForm.selectedVillageName form2) = true).
  { destruct (AshaForm.selectedVillageName form2); [| reflexivity].
    destruct (AshaForm.selectedVillageName form); [discriminate Hn | discriminate Hcase]. }
  unfold handleSubmit at 1. rewrite Hw2, Hn2, Hfound. simpl.
  eexists. split; reflexivity.
Qed.

End FormAndHandler.

(** * The search box *)

Lemma prefix_same (s : string) : String.prefix s s = true.
Proof.
  induction s as [| c s IH]; simpl; [reflexivity |].
  by destruct (ascii_dec c c).
Qed.

Lemma includesText_same (s : string) : includesText s s = true.
Proof.
  destruct s as [| c s]; [reflexivity |].
  cbn [includesText]. by rewrite prefix_same.
Qed.

Lemma find_satisfied (test : Village.t → bool) (villages : list Village.t) (v : Village.t) :
  v ∈ villages → test v = true →
  ∃ found, find test villages = Some found ∧ found ∈ villages ∧ test found = true.
Proof.
  intros Hv Ht. destruct (find test villages) as [w |] eqn:Hf.
  - exists w. apply find_some in Hf as [Hin Hw].
    split; [reflexivity |]. split; [by apply list_elem_of_In | exact Hw].
  - apply list_elem_of_In in Hv. pose proof (find_none _ _ Hf v Hv). congruence.
Qed.

(** X21. Searching for the name of a monitored village, in any letter case,
    stays local: a monitored village whose name contains the query is
    selected, the searched location and the fly-to target are cleared, and no
    request is started.  A blank query changes nothing. *)
Theorem search_by_name_is_local (villages : list Village.t) (view : View.t)
    (v : Village.t) :
  v ∈ villages →
  toLowerCase (View.searchQuery view) = toLowerCase (Village.name v) →
  (truthy (trim (View.searchQuery view)) = true →
   ∃ found,
     found ∈ villages
     ∧ nameContains (View.searchQuery view) found = true
     ∧ handleSearch_start villages view
       = (View.mk (Some (Village.id found)) (View.searchQuery view) None None
            (View.isGlobalSearching view), false))
  ∧ (truthy (trim (View.searchQuery view)) = false →
     handleSearch_start villages view = (view, false)).
Proof.
  intros Hv Hq. unfold handleSearch_start. split; intros Ht; rewrite Ht; simpl.
  - destruct (find_satisfied (nameContains (View.searchQuery view)) villages v Hv)
      as (found & Hf & Hin & Hc).
    { unfold nameContains. rewrite Hq. apply includesText_same. }
    exists found. rewrite Hf. by repeat split.
  - reflexivity.
Qed.

Lemma viewStep_panel (view : View.t) (event : ViewEvent) :
  panel_matches_map view → panel_matches_map (viewStep view event).
Proof.
  unfold panel_matches_map. intros Hinv.
  destruct event as [value | villages | reply | | v | u]; simpl;
    try (intros place Hp; discriminate Hp); try exact Hinv.
  - unfold handleSearch_start.
    destruct (negb (truthy (trim (View.searchQuery view)))); [exact Hinv |].
    destruct (find _ villages); simpl; intros place Hp; discriminate Hp.
  - destruct reply as [| [| p ps] |]; simpl; try exact Hinv.
    intros place Hp. injection Hp as <-. reflexivity.
Qed.

(** X22. Whatever is typed, searched, answered, cleared, clicked or
    committed, in any order and with requests still pending, the place that
    the details panel describes is the place the map flies to. *)
Theorem panel_always_matches_map (events : list ViewEvent) :
  panel_matches_map (fold_left viewStep events initialView).
Proof.
  assert (Hgen : ∀ view, panel_matches_map view →
                         panel_matches_map (fold_left viewStep events view)).
  { induction events as [| e es IH]; intros view Hview; simpl; [exact Hview |].
    apply IH, viewStep_panel, Hview. }
  apply Hgen. intros place Hp. discriminate Hp.
Qed.

(** * The location text and the handler together *)

Lemma digit_cases (d : Z) :
  (0 ≤ d < 10)%Z →
  d = 0%Z ∨ d = 1%Z ∨ d = 2%Z ∨ d = 3%Z ∨ d = 4%Z
  ∨ d = 5%Z ∨ d = 6%Z ∨ d = 7%Z ∨ d = 8%Z ∨ d = 9%Z.
Proof. lia. Qed.

Lemma digitChar_digit (d : Z) :
  (0 ≤ d < 10)%Z →
  is_digit (digitChar d) = true ∧ digit_value (digitChar d) = d.
Proof.
  intros Hd.
  destruct (digit_cases d Hd) as [-> | [-> | [-> | [-> | [-> | [-> | [-> | [-> | [-> | ->]]]]]]]]];
    by split.
Qed.

Lemma not_digit_eqb (c d : ascii) :
  is_digit c = true → is_digit d = false → Ascii.eqb c d = false.
Proof.
  intros Hc Hd. destruct (Ascii.eqb c d) eqn:He; [| reflexivity].
  apply Ascii.eqb_eq in He. congruence.
Qed.

Lemma digits_fraction5 (acc : Z) (k : nat) (n : Z) :
  (0 ≤ n < 100000)%Z →
  digits acc k (fraction5 n) = ((acc * 100000 + n)%Z, k + 5, EmptyString).
Proof.
  intros Hn. unfold fraction5.
  assert (H4 : (0 ≤ (n / 10000) mod 10 < 10)%Z) by (apply Z.mod_pos_bound; lia).
  assert (H3 : (0 ≤ (n / 1000) mod 10 < 10)%Z) by (apply Z.mod_pos_bound; lia).
  assert (H2 : (0 ≤ (n / 100) mod 10 < 10)%Z) by (apply Z.mod_pos_bound; lia).
  assert (H1 : (0 ≤ (n / 10) mod 10 < 10)%Z) by (apply Z.mod_pos_bound; lia).
  assert (H0 : (0 ≤ n mod 10 < 10)%Z) by (apply Z.mod_pos_bound; lia).
  destruct (digitChar_digit _ H4) as [D4 V4], (digitChar_digit _ H3) as [D3 V3],
    (digitChar_digit _ H2) as [D2 V2], (digitChar_digit _ H1) as [D1 V1],
    (digitChar_digit _ H0) as [D0 V0].
  cbn [digits]. rewrite D4, D3, D2, D1, D0, V4, V3, V2, V1, V0.
  lazymatch goal with
  | |- (?a, ?b, _) = (?a', ?b', _) =>
      replace a with a' by (Z.to_euclidean_division_equations; lia);
      replace b with b' by lia
  end.
  reflexivity.
Qed.

Lemma fraction5_clean (c : ascii) (n : Z) :
  (0 ≤ n < 100000)%Z → is_digit c = false → includes c (fraction5 n) = false.
Proof.
  intros Hn Hc. unfold fraction5. cbn [includes].
  rewrite !(not_digit_eqb _ c); try exact Hc; try reflexivity;
    apply digitChar_digit, Z.mod_pos_bound; lia.
Qed.

Lemma uint_clean (c : ascii) (d : Decimal.uint) :
  is_digit c = false → includes c (NilEmpty.string_of_uint d) = false.
Proof.
  intros Hc. induction d; cbn [NilEmpty.string_of_uint includes]; [reflexivity | ..];
    rewrite IHd, orb_false_r; by apply not_digit_eqb.
Qed.

Lemma append_cons (c : ascii) (s t : string) :
  (String c s ++ t)%string = String c (s ++ t)%string.
Proof. reflexivity. Qed.

Lemma append_empty (t : string) : (EmptyString ++ t)%string = t.
Proof. reflexivity. Qed.

Ltac known_digit :=
  lazymatch goal with
  | |- context [is_digit ?c] =>
      change (is_digit c) with true;
      let v := eval vm_compute in (digit_value c) in
      change (digit_value c) with v
  end.

Lemma digits_uint_acc (d : Decimal.uint) : ∀ (p : positive) (k : nat) c rest,
  is_digit c = false →
  digits (Z.pos p) k (NilEmpty.string_of_uint d ++ String c rest)%string
  = (Z.pos (Pos.of_uint_acc d p),
     k + String.length (NilEmpty.string_of_uint d), String c rest).
Proof.
  induction d; intros p k c rest Hc;
    cbn [NilEmpty.string_of_uint Pos.of_uint_acc String.length];
    rewrite ?append_cons, ?append_empty; cbn [digits];
    [by rewrite Hc, Nat.add_0_r | ..];
    (known_digit; cbv iota; rewrite Nat.add_succ_r;
     lazymatch goal with
     | |- digits ?z _ _ = (Z.pos (Pos.of_uint_acc _ ?q), _, _) =>
         replace z with (Z.pos q) by lia; apply (IHd q (S k) c rest Hc)
     end).
Qed.

Lemma digits_uint (d : Decimal.uint) : ∀ (k : nat) c rest,
  is_digit c = false →
  digits 0 k (NilEmpty.string_of_uint d ++ String c rest)%string
  = (Z.of_N (Pos.of_uint d),
     k + String.length (NilEmpty.string_of_uint d), String c rest).
Proof.
  induction d; intros k c rest Hc;
    cbn [NilEmpty.string_of_uint Pos.of_uint String.length];
    rewrite ?append_cons, ?append_empty; cbn [digits];
    [by rewrite Hc, Nat.add_0_r
    | known_digit; cbv iota; rewrite Nat.add_succ_r; apply (IHd (S k) c rest Hc)
    | ..];
    (known_digit; cbv iota; rewrite Nat.add_succ_r;
     lazymatch goal with
     | |- digits ?z _ _ = (Z.of_N (N.pos (Pos.of_uint_acc _ ?q)), _, _) =>
         change z with (Z.pos q); apply (digits_uint_acc d q (S k) c rest Hc)
     end).
Qed.

(** The digits of an integer that is not negative. *)
Lemma string_of_Z_digits (x : Z) :
  (0 ≤ x)%Z →
  ∃ d first more,
    string_of_Z x = NilEmpty.string_of_uint d
    ∧ NilEmpty.string_of_uint d = String first more
    ∧ is_digit first = true
    ∧ Z.of_N (Pos.of_uint d) = x.
Proof.
  intros Hx. unfold string_of_Z. destruct x as [| p | p]; [| | lia].
  - exists (Decimal.D0 Decimal.Nil), "0"%char, EmptyString. by repeat split.
  - pose proof (Unsigned.to_uint_nonnil p) as Hnil.
    pose proof (Unsigned.of_to p) as Hval.
    exists (Pos.to_uint p). simpl.
    destruct (Pos.to_uint p) eqn:Hd; [congruence | ..];
      (eexists _, _; split; [reflexivity |]; split; [reflexivity |];
       split; [reflexivity | by rewrite Hval]).
Qed.

Lemma includes_app (c : ascii) (s t : string) :
  includes c (s ++ t)%string = includes c s || includes c t.
Proof.
  induction s as [| d s IH]; [reflexivity |].
  rewrite append_cons. cbn [includes]. by rewrite IH, orb_assoc.
Qed.

Lemma split_at_separator (c : ascii) (s rest : string) :
  includes c s = false →
  split c (s ++ String c rest)%string = s :: split c rest.
Proof.
  induction s as [| d s IH]; intros Hs.
  - rewrite append_empty. cbn [split]. by rewrite Ascii.eqb_refl.
  - cbn [includes] in Hs. apply orb_false_iff in Hs as [Hd Hs].
    rewrite append_cons. cbn [split]. by rewrite Hd, (IH Hs).
Qed.

(** Reading back what [toFixed] prints for a number below 10^21. *)
Lemma parseFloat_printed (neg : bool) (ip fp : Z) :
  (0 ≤ ip)%Z → (0 ≤ fp < 100000)%Z →
  parseFloat ((if neg then "-" else "")
              ++ (string_of_Z ip ++ "." ++ fraction5 fp))%string
  = decimal (signed neg (ip * 100000 + fp)) (-5).
Proof.
  intros Hip Hfp.
  destruct (string_of_Z_digits ip Hip) as (d & first & more & -> & Hd & Hfirst & Hval).
  assert (Hbody : (NilEmpty.string_of_uint d ++ "." ++ fraction5 fp)%string
                  = String first (more ++ String "." (fraction5 fp))%string).
  { by rewrite Hd. }
  assert (Hparse : parseLiteral
                     (if neg
                      then String "-" (NilEmpty.string_of_uint d ++ "." ++ fraction5 fp)
                      else (NilEmpty.string_of_uint d ++ "." ++ fraction5 fp))%string
                   = decimal (signed neg (ip * 100000 + fp)) (-5)).
  { unfold parseLiteral.
    assert (Hsign : sign_of
                      (if neg
                       then String "-" (NilEmpty.string_of_uint d ++ "." ++ fraction5 fp)
                       else (NilEmpty.string_of_uint d ++ "." ++ fraction5 fp))%string
                    = (neg, (NilEmpty.string_of_uint d ++ "." ++ fraction5 fp)%string)).
    { destruct neg; [reflexivity |]. rewrite Hbody. cbn [sign_of].
      by rewrite (not_digit_eqb first "-" Hfirst eq_refl),
        (not_digit_eqb first "+" Hfirst eq_refl). }
    rewrite Hsign.
    assert (Hinf : String.prefix "Infinity"
                     (NilEmpty.string_of_uint d ++ "." ++ fraction5 fp)%string = false).
    { rewrite Hbody. cbn [String.prefix].
      destruct (ascii_dec "I" first) as [<- | _]; [discriminate Hfirst | reflexivity]. }
    rewrite Hinf.
    change ("." ++ fraction5 fp)%string with (String "." (fraction5 fp)).
    rewrite (digits_uint d 0 "." (fraction5 fp) eq_refl), Hval, Hd.
    cbn [String.length Nat.add fraction]. rewrite Ascii.eqb_refl.
    rewrite (digits_fraction5 ip 0 fp Hfp). reflexivity. }
  unfold parseFloat.
  destruct neg.
  - exact Hparse.
  - rewrite append_empty, Hbody. cbn [trimStart].
    rewrite (digit_not_white _ Hfirst), <- Hbody. exact Hparse.
Qed.

Lemma scaled5_bounds (q : Q) :
  (0 ≤ scaled5 q / 100000)%Z ∧ (0 ≤ scaled5 q mod 100000 < 100000)%Z
  ∧ (scaled5 q / 100000 * 100000 + scaled5 q mod 100000 = scaled5 q)%Z.
Proof.
  assert (Hn : (0 ≤ scaled5 q)%Z).
  { unfold scaled5. apply Z.div_pos; lia. }
  split; [apply Z.div_pos; lia |]. split; [apply Z.mod_pos_bound; lia |].
  Z.to_euclidean_division_equations. lia.
Qed.

Section LocationFacts.

Variable Number_toString : Q -> string.

(** Parsing the text that [toFixed] prints gives the number to five
    decimals. *)
Lemma parseFloat_toFixed5 (x : number) :
  fixable x → parseFloat (toFixed5 Number_toString x) = roundTo5 x.
Proof.
  destruct x as [| [|] | q]; try reflexivity.
  intros Hq. simpl in Hq. unfold toFixed5, roundTo5. rewrite Hq.
  destruct (scaled5_bounds q) as (Hip & Hfp & Hn).
  rewrite (parseFloat_printed _ _ _ Hip Hfp). by rewrite Hn.
Qed.

Lemma toFixed5_clean (x : number) :
  fixable x → includes "," (toFixed5 Number_toString x) = false.
Proof.
  destruct x as [| [|] | q]; try reflexivity.
  intros Hq. simpl in Hq. unfold toFixed5. rewrite Hq.
  destruct (scaled5_bounds q) as (Hip & Hfp & _).
  destruct (string_of_Z_digits _ Hip) as (d & _ & _ & -> & _).
  rewrite !includes_app, (uint_clean "," d eq_refl),
    (fraction5_clean "," _ Hfp eq_refl).
  by destruct (Qnum q <? 0)%Z.
Qed.

Lemma isNaN_roundTo5 (x : number) : isNaN (roundTo5 x) = isNaN x.
Proof. by destruct x. Qed.

Lemma parseCoordinates_locationText (latitude longitude : number) :
  fixable latitude → fixable longitude →
  parseCoordinates (locationText Number_toString latitude longitude)
  = if isNaN latitude || isNaN longitude then defaultCenter
    else {| lat := roundTo5 latitude; lng := roundTo5 longitude |}.
Proof.
  intros Hlat Hlng. unfold parseCoordinates, locationText.
  change (", " ++ toFixed5 Number_toString longitude)%string
    with (String "," (String " " (toFixed5 Number_toString longitude))).
  assert (Hcomma : includes "," (toFixed5 Number_toString latitude
                      ++ String "," (String " " (toFixed5 Number_toString longitude)))%string
                   = true).
  { rewrite includes_app. cbn [includes]. rewrite Ascii.eqb_refl. apply orb_true_r. }
  rewrite Hcomma, (includes_truthy _ _ Hcomma). cbn [andb].
  rewrite (split_at_separator _ _ _ (toFixed5_clean _ Hlat)).
  rewrite (split_without "," (String " " (toFixed5 Number_toString longitude))).
  2: { cbn [includes]. by rewrite (toFixed5_clean _ Hlng). }
  cbn [map nth]. rewrite !parseFloat_trim.
  change (parseFloat (String " " (toFixed5 Number_toString longitude)))
    with (parseFloat (toFixed5 Number_toString longitude)).
  rewrite !parseFloat_toFixed5 by assumption. rewrite !isNaN_roundTo5.
  by destruct (isNaN latitude), (isNaN longitude).
Qed.

End LocationFacts.

(** The fraction of a number of five decimals, in lowest terms. *)
Lemma decimal5_fraction (m : Z) :
  ∃ q, decimal m (-5) = Finite q
       ∧ (Qnum q * 100000 = m * Z.pos (Qden q))%Z.
Proof.
  eexists. split; [reflexivity |].
  pose proof (Qred_correct (Qmult (inject_Z m) (Qpower (10 # 1) (-5)))) as H.
  unfold Qeq in H.
  change (Qpower (10 # 1) (-5)) with (1 # 100000)%Q in *.
  cbn [Qmult inject_Z Qnum Qden] in H.
  change (Z.pos (1 * 100000)) with 100000%Z in H. lia.
Qed.

Lemma scaled5_exact (q : Q) (m : Z) :
  (Qnum q * 100000 = m * Z.pos (Qden q))%Z →
  signed (Qnum q <? 0)%Z (scaled5 q) = m ∧ (Z.abs (Qnum q) * 100000 = Z.abs m * Z.pos (Qden q))%Z.
Proof.
  intros H. set (b := Z.pos (Qden q)) in *. assert (Hb : (0 < b)%Z) by (subst b; lia).
  assert (Habs : (Z.abs (Qnum q) * 100000 = Z.abs m * b)%Z).
  { rewrite <- (Z.abs_eq 100000), <- (Z.abs_eq b) by lia.
    rewrite <- !Z.abs_mul. by f_equal. }
  split; [| exact Habs].
  assert (Hn : scaled5 q = Z.abs m).
  { unfold scaled5. cbv zeta. fold b. symmetry.
    apply (Z.div_unique _ _ _ b); lia. }
  rewrite Hn. unfold signed.
  destruct (Z.ltb_spec (Qnum q) 0); nia.
Qed.

Lemma roundTo5_decimal (m : Z) : roundTo5 (decimal m (-5)) = decimal m (-5).
Proof.
  destruct (decimal5_fraction m) as (q & Hq & Hm).
  rewrite Hq at 1. unfold roundTo5.
  by destruct (scaled5_exact q m Hm) as [-> _].
Qed.

Lemma fixable_decimal (m : Z) :
  (Z.abs m < 10 ^ 26)%Z → fixable (decimal m (-5)).
Proof.
  intros Hlt. destruct (decimal5_fraction m) as (q & -> & Hm).
  destruct (scaled5_exact q m Hm) as [_ Habs].
  unfold fixable, below_1e21. apply Z.ltb_lt.
  apply (Z.mul_lt_mono_pos_r 100000); [lia |].
  rewrite Habs. change (10 ^ 26)%Z with (10 ^ 21 * 100000)%Z in Hlt.
  nia.
Qed.

Section LocationAndHandler.

Variable JSON_parse : string -> option AIAnalysisResult.t.
Variable Number_toString : Q -> string.

(** X23. The location text that the form writes from a position is always
    accepted for a new village, and the village is created at that position
    rounded to five decimals; it is created at the default centre when the
    position has a coordinate that is not a number. *)
Theorem located_form_places_village uuid Date_now isoNow villages form out
    latitude longitude :
  AshaForm.workerLocation form = locationText Number_toString latitude longitude →
  fixable latitude → fixable longitude →
  truthy (AshaForm.workerName form) = true →
  truthy (AshaForm.selectedVillageName form) = true →
  find (sameName (AshaForm.selectedVillageName form)) villages = None →
  (∀ v, v ∈ villages → Village.id v ≠ ("new-" ++ string_of_Z Date_now)%string) →
  ∃ report,
    fst (handleSubmit uuid Date_now isoNow villages form)
    = Sent report (AshaForm.selectedVillageName form)
    ∧ Village.coordinates
        (updatedVillageOf JSON_parse out villages report
           (AshaForm.selectedVillageName form))
      = if isNaN latitude || isNaN longitude then defaultCenter
        else {| lat := roundTo5 latitude; lng := roundTo5 longitude |}.
Proof.
  intros Hloc Hlat Hlng Hw Hn Hnone Hfresh.
  assert (Hcomma : includes "," (AshaForm.workerLocation form) = true).
  { rewrite Hloc. unfold locationText.
    change (", " ++ toFixed5 Number_toString longitude)%string
      with (String "," (String " " (toFixed5 Number_toString longitude))).
    rewrite includes_app. cbn [includes]. rewrite Ascii.eqb_refl. apply orb_true_r. }
  destruct (handleSubmit uuid Date_now isoNow villages form) as [sent form'] eqn:Hs.
  assert (Hsent : ∃ report, sent = Sent report (AshaForm.selectedVillageName form)).
  { unfold handleSubmit in Hs.
    rewrite Hw, Hn, Hnone, Hcomma, (includes_truthy _ _ Hcomma) in Hs. simpl in Hs.
    injection Hs as <- _. eauto. }
  destruct Hsent as [report ->]. exists report. split; [reflexivity |].
  apply handleSubmit_sent in Hs as (_ & _ & _ & _ & _ & Hrl & Hid & _ & _).
  rewrite Hnone in Hid.
  assert (Hf : find (has_id (CaseReport.villageId report)) villages = None).
  { apply find_has_id_None. by rewrite Hid. }
  unfold updatedVillageOf. rewrite (resolveVillage_new _ _ _ _ Hf). simpl.
  rewrite Hrl, Hloc. by apply parseCoordinates_locationText.
Qed.

(** X24. A position of at most five decimals comes back from the location
    text as it went in: printing it with [toFixed(5)] and parsing the text as
    the handler does is the identity on such positions. *)
Theorem five_decimals_round_trip (a b : Z) :
  (Z.abs a < 10 ^ 26)%Z → (Z.abs b < 10 ^ 26)%Z →
  parseCoordinates (locationText Number_toString (decimal a (-5)) (decimal b (-5)))
  = {| lat := decimal a (-5); lng := decimal b (-5) |}.
Proof.
  intros Ha Hb.
  rewrite (parseCoordinates_locationText Number_toString _ _
             (fixable_decimal a Ha) (fixable_decimal b Hb)).
  by rewrite !roundTo5_decimal.
Qed.

End LocationAndHandler.

(** * The properties above on the samples *)

Lemma seed_ids_distinct : NoDup (map Village.id INITIAL_VILLAGES).
Proof.
  simpl. repeat (apply NoDup_cons; split);
    rewrite ?not_elem_of_cons, ?elem_of_nil; try apply NoDup_nil_2;
    intuition discriminate.
Defined.

Lemma seed_ids_not_new (v : Village.t) :
  v ∈ INITIAL_VILLAGES → Village.id v ≠ ("new-" ++ string_of_Z 1700000000000)%string.
Proof.
  intros Hv.
  repeat (apply elem_of_cons in Hv as [-> | Hv]; [intros E; vm_compute in E; discriminate E |]).
  by apply elem_of_nil in Hv.
Defined.

Lemma seed_located : Forall located INITIAL_VILLAGES.
Proof. repeat constructor. Defined.

(** X2 on the row: the cluster of A and B is a star around A. *)
Lemma clusters_are_stars_witness :
  rowCluster ∈ rowClusters
  ∧ ∃ anchor others,
      OutbreakCluster.villageIds rowCluster = Village.id anchor :: map Village.id others
      ∧ anchor ∈ [rowA; rowB; rowC] ∧ Village.status anchor ≠ GREEN
      ∧ ∀ o, o ∈ others →
          o ∈ [rowA; rowB; rowC] ∧ Village.status o ≠ GREEN
          ∧ within_threshold tableDistance anchor o.
Proof.
  split; [exact rowCluster_returned |].
  exact (clusters_are_stars tableDistance exact_add exact_div frozenClock serviceDown
           [rowA; rowB; rowC] rowCluster rowCluster_returned).
Defined.

(** X4 on the two ends of the row: no cluster, and they are 25 km apart. *)
Lemma leftover_villages_far_witness :
  analyzeClusters tableDistance exact_add exact_div frozenClock serviceDown [rowA; rowC] = []
  ∧ ¬ within_threshold tableDistance rowA rowC.
Proof.
  assert (Hnone : analyzeClusters tableDistance exact_add exact_div frozenClock serviceDown
                    [rowA; rowC] = []) by reflexivity.
  split; [exact Hnone |].
  apply (leftover_villages_far tableDistance exact_add exact_div frozenClock serviceDown
           [rowA; rowC] [] rowA [] rowC []).
  - simpl. repeat (apply NoDup_cons; split);
      rewrite ?not_elem_of_cons, ?elem_of_nil; try apply NoDup_nil_2;
      intuition discriminate.
  - reflexivity.
  - discriminate.
  - discriminate.
  - intros c Hc. rewrite Hnone in Hc. by apply elem_of_nil in Hc.
  - intros c Hc. rewrite Hnone in Hc. by apply elem_of_nil in Hc.
Defined.

(** X6 on the row, with the service down: the fixed sentence. *)
Lemma advice_never_empty_witness :
  truthy (OutbreakCluster.aiAdvice rowCluster) = true
  ∧ (OutbreakCluster.aiAdvice rowCluster = "Cluster detected. Coordinate resources."
     ∨ ∃ i members,
         serviceDown i members (OutbreakCluster.severity rowCluster)
         = Resolved (Some (OutbreakCluster.aiAdvice rowCluster))).
Proof.
  exact (advice_never_empty tableDistance exact_add exact_div frozenClock serviceDown
           [rowA; rowB; rowC] rowCluster rowCluster_returned).
Defined.

(** X9 on the seed data: five cases, then three, in Pedana, which has two. *)
Lemma second_report_accumulates_witness :
  let report1 := reportFor "v1" "16.2556, 81.1667" "Fever, Chills" 5 in
  let report2 := reportFor "v1" "16.2556, 81.1667" "Rash" 3 in
  let villages1 := handleReportSubmit sampleParse outFailed INITIAL_VILLAGES report1 "Pedana" in
  Village.activeCases (updatedVillageOf sampleParse outRed villages1 report2 "Pedana") = 10%Z
  ∧ length (handleReportSubmit sampleParse outRed villages1 report2 "Pedana") = 5.
Proof.
  intros report1 report2 villages1.
  pose proof (second_report_accumulates sampleParse outFailed outRed INITIAL_VILLAGES
                report1 report2 "Pedana" "Pedana" eq_refl) as H.
  cbv zeta in H. destruct H as (_ & _ & Hlen & Hsum). subst villages1.
  split; [rewrite Hsum; reflexivity | rewrite Hlen; reflexivity].
Defined.

(** X10 on the seed data: 75 cases and five more. *)
Lemma total_grows_by_count_witness :
  let report := reportFor "v1" "16.2556, 81.1667" "Fever, Chills" 5 in
  totalCases INITIAL_VILLAGES = 75%Z
  ∧ totalCases (handleReportSubmit sampleParse outFailed INITIAL_VILLAGES report "Pedana")
    = 80%Z.
Proof.
  intros report. split; [reflexivity |].
  rewrite (total_grows_by_count sampleParse outFailed INITIAL_VILLAGES report "Pedana"
             seed_ids_distinct).
  reflexivity.
Defined.

(** X11 on the seed data: Fever goes behind Mild Fever. *)
Lemma symptoms_keep_order_witness :
  let report := reportFor "v1" "16.2556, 81.1667" "Fever, Chills" 5 in
  Village.dominantSymptoms
    (updatedVillageOf sampleParse outFailed INITIAL_VILLAGES report "Pedana")
  = ["Mild Fever"; "Fever"].
Proof.
  intros report.
  pose proof (symptoms_keep_order sampleParse outFailed INITIAL_VILLAGES report "Pedana") as H.
  cbv zeta in H.
  assert (Hnd : NoDup (Village.dominantSymptoms
                         (fst (resolveVillage outFailed INITIAL_VILLAGES report "Pedana")))).
  { simpl. apply NoDup_singleton. }
  destruct (H Hnd) as [_ Hnew]. rewrite Hnew; [reflexivity |].
  simpl. rewrite not_elem_of_cons, elem_of_nil. intuition discriminate.
Defined.

(** X12 on the seed data: the symptom that was added is Fever. *)
Lemma added_symptom_clean_witness :
  let report := reportFor "v1" "16.2556, 81.1667" "Fever, Chills" 5 in
  "Fever" ∈ Village.dominantSymptoms
              (fst (resolveVillage outFailed INITIAL_VILLAGES report "Pedana"))
  ∨ (truthy "Fever" = true
     ∧ includes "," "Fever" = false
     ∧ ("Fever" = "Unknown" ∨ String.prefix "Fever" (CaseReport.symptoms report) = true)).
Proof.
  intros report.
  apply (added_symptom_clean sampleParse outFailed INITIAL_VILLAGES report "Pedana" "Fever").
  vm_compute. right. left.
Defined.

(** X13 on the seed data: a location that cannot be read. *)
Lemma coordinates_stay_numbers_witness :
  Forall located
    (handleReportSubmit sampleParse outFailed INITIAL_VILLAGES
       (reportFor "new-1" "bad input" "Fever" 1) "Rampur").
Proof.
  exact (coordinates_stay_numbers sampleParse outFailed INITIAL_VILLAGES
           (reportFor "new-1" "bad input" "Fever" 1) "Rampur" seed_located).
Defined.

(** X15 on Cheepurupalli, which lists three symptoms. *)
Lemma Part002_symptoms_frozen_witness :
  let village := seed "v3" "Cheepurupalli" "Vizianagaram" 183000 835667 4200 45 RED
                   "today" ["High Fever"; "Vomiting"; "Rash"] in
  Village.dominantSymptoms
    (Part002.updateVillage village (reportFor "v3" "18.3, 83.5667" "Cough" 1)
       fallbackAnalysis "now")
  = ["High Fever"; "Vomiting"; "Rash"].
Proof.
  intros village.
  rewrite (Part002_symptoms_frozen village (reportFor "v3" "18.3, 83.5667" "Cough" 1)
             fallbackAnalysis "now").
  - reflexivity.
  - simpl. repeat (apply NoDup_cons; split);
      rewrite ?not_elem_of_cons, ?elem_of_nil; try apply NoDup_nil_2;
      intuition discriminate.
  - simpl. lia.
Defined.

(** X17 on the seed data: two comments on Pedana. *)
Lemma comments_newest_first_witness :
  ∃ v'',
    handleAddComment "Thank you" "c2" "later"
      (handleAddComment "Please send help" "c1" "now" INITIAL_VILLAGES "v1") "v1" !! 0
    = Some v''
    ∧ Village.comments v''
      = [Comment.mk "c2" "Public User" "Thank you" "later";
         Comment.mk "c1" "Public User" "Please send help" "now"].
Proof.
  exact (comments_newest_first "Please send help" "c1" "now" "Thank you" "c2" "later"
           INITIAL_VILLAGES "v1" 0 _ eq_refl eq_refl eq_refl eq_refl).
Defined.

(** X18 on the seed data: a report about pedana, typed in small letters. *)
Lemma sent_report_is_complete_witness :
  ∃ report,
    fst (handleSubmit "u1" 1700000000000 "now" INITIAL_VILLAGES
           (formFor "pedana" "")) = Sent report "pedana"
    ∧ truthy (CaseReport.workerName report) = true
    ∧ truthy (trim (CaseReport.diseaseType report)) = true
    ∧ CaseReport.villageId report = "v1".
Proof.
  eexists. split; [reflexivity |].
  destruct (sent_report_is_complete "u1" 1700000000000 "now" INITIAL_VILLAGES
              (formFor "pedana" "") _ _ _ eq_refl) as (Hw & _ & Hd & _).
  split; [exact Hw |]. split; [exact Hd | reflexivity].
Defined.

(** X19 on the seed data: the report about pedana reaches Pedana. *)
Lemma form_report_reaches_village_witness :
  ∃ report,
    fst (handleSubmit "u1" 1700000000000 "now" INITIAL_VILLAGES
           (formFor "pedana" "")) = Sent report "pedana"
    ∧ fst (resolveVillage outFailed INITIAL_VILLAGES report "pedana")
      = seed "v1" "Pedana" "Krishna" 162556 811667 3100 2 GREEN "today" ["Mild Fever"]
    ∧ map Village.id
        (handleReportSubmit sampleParse outFailed INITIAL_VILLAGES report "pedana")
      = ["v1"; "v2"; "v3"; "v4"; "v5"].
Proof.
  eexists. split; [reflexivity |].
  destruct (form_report_reaches_village sampleParse "u1" 1700000000000 "now"
              INITIAL_VILLAGES (formFor "pedana" "") _ _ _ _ outFailed
              seed_ids_distinct eq_refl eq_refl) as (_ & Hres & Hids).
  split; [exact (f_equal fst Hres) | exact Hids].
Defined.

(** X20 on the seed data: Rampur is created, and RAMPUR finds it. *)
Lemma new_village_is_found_by_name_witness :
  ∃ report report2,
    fst (handleSubmit "u1" 1700000000000 "now" INITIAL_VILLAGES
           (formFor "Rampur" "18.3,83.5")) = Sent report "Rampur"
    ∧ fst (handleSubmit "u2" 1700000000001 "later"
             (handleReportSubmit sampleParse outFailed INITIAL_VILLAGES report "Rampur")
             (formFor "RAMPUR" "")) = Sent report2 "RAMPUR"
    ∧ CaseReport.villageId report2 = "new-1700000000000".
Proof.
  eexists.
  destruct (new_village_is_found_by_name sampleParse "u1" 1700000000000 "now"
              INITIAL_VILLAGES (formFor "Rampur" "18.3,83.5") _ _ _ outFailed
              "u2" 1700000000001 "later" (formFor "RAMPUR" "")
              eq_refl eq_refl seed_ids_not_new eq_refl eq_refl)
    as (_ & _ & Hid & _ & _ & report2 & Hsent2 & Hid2).
  exists report2. split; [reflexivity |]. split; [exact Hsent2 |].
  rewrite Hid2. exact Hid.
Defined.

(** X21 on the seed data: PEDANA selects Pedana and starts no request. *)
Lemma search_by_name_is_local_witness :
  ∃ found,
    found ∈ INITIAL_VILLAGES
    ∧ nameContains "PEDANA" found = true
    ∧ handleSearch_start INITIAL_VILLAGES (viewTyped "PEDANA")
      = (View.mk (Some (Village.id found)) "PEDANA" None None false, false).
Proof.
  destruct (search_by_name_is_local INITIAL_VILLAGES (viewTyped "PEDANA")
              (seed "v1" "Pedana" "Krishna" 162556 811667 3100 2 GREEN "today"
                 ["Mild Fever"])) as [Hlocal _].
  - left.
  - reflexivity.
  - exact (Hlocal eq_refl).
Defined.

(** X23 on the seed data: a position of seven decimals places Rampur at five. *)
Lemma located_form_places_village_witness :
  let latitude := decimal 183000049 (-7) in
  let longitude := decimal 835000051 (-7) in
  let form := formFor "Rampur" (locationText sampleToString latitude longitude) in
  AshaForm.workerLocation form = "18.30000, 83.50001"
  ∧ ∃ report,
      fst (handleSubmit "u1" 1700000000000 "now" INITIAL_VILLAGES form)
      = Sent report "Rampur"
      ∧ Village.coordinates
          (updatedVillageOf sampleParse outFailed INITIAL_VILLAGES report "Rampur")
        = {| lat := decimal 183 (-1); lng := decimal 8350001 (-5) |}.
Proof.
  intros latitude longitude form. split; [reflexivity |].
  exact (located_form_places_village sampleParse sampleToString "u1" 1700000000000 "now"
           INITIAL_VILLAGES form outFailed latitude longitude
           eq_refl eq_refl eq_refl eq_refl eq_refl eq_refl seed_ids_not_new).
Defined.

(** X24 on the position of Pedana. *)
Lemma five_decimals_round_trip_witness :
  locationText sampleToString (decimal 1625560 (-5)) (decimal 8116670 (-5))
  = "16.25560, 81.16670"
  ∧ parseCoordinates "16.25560, 81.16670"
    = {| lat := decimal 162556 (-4); lng := decimal 811667 (-4) |}.
Proof.
  split; [reflexivity |].
  exact (five_decimals_round_trip sampleToString 1625560 8116670 eq_refl eq_refl).
Defined.
